(** * Derived potentials of the [Potential] submodel

    Shallow embedding of [pybamm/models/submodels/potential.py]: the two
    methods [get_derived_open_circuit_potentials] and
    [get_derived_reaction_overpotentials] of class [Potential], over a model of
    the host framework's symbolic expressions. *)

From Stdlib Require Import QArith Reals Qreals Lra.
From stdpp Require Import gmap strings list fin_maps.

Local Open Scope string_scope.

(** ** The host framework's expression trees *)

Module pybamm.

(** Modelled from the spec: the expression type [pybamm.Symbol] of the host
    framework, which is not part of the submodel's file.  The spec asks for
    "a symbolic scalar/field expression type supporting broadcasting over
    named spatial domains, a spatial integration operator, a boundary-value
    extraction operator"; the arithmetic operators of Python ([+], [-], [*],
    [/]) build the four binary nodes.  Every constructor is free: building a
    node neither inspects nor rewrites its children. *)
Inductive Symbol : Type :=
| Scalar (value : Q)
| ParameterSym (name : string)
| VariableSym (name : string) (domain : list string)
| SpatialVariable (name : string) (domain : list string)
| Broadcast (child : Symbol) (domain : list string)
| Integral (child : Symbol) (integration_variable : Symbol)
| BoundaryValue (child : Symbol) (side : string)
| Addition (left right : Symbol)
| Subtraction (left right : Symbol)
| Multiplication (left right : Symbol)
| Division (left right : Symbol).

(** Modelled from the spec: the [domain] attribute of an expression, the
    list of named spatial domains it is tagged with ([[]] when untagged).
    Leaves carry their tag, a broadcast carries the domain it was broadcast
    to, integration and boundary extraction remove the tag, and a binary node
    takes the tag of its tagged operand. *)
Fixpoint domain (s : Symbol) : list string :=
  match s with
  | Scalar _ => []
  | ParameterSym _ => []
  | VariableSym _ d => d
  | SpatialVariable _ d => d
  | Broadcast _ d => d
  | Integral _ _ => []
  | BoundaryValue _ _ => []
  | Addition l r | Subtraction l r | Multiplication l r | Division l r =>
      match domain l with
      | [] => domain r
      | _ :: _ => domain l
      end
  end.

(** Modelled from the spec: the real number an expression denotes at a point
    of space and time.  The spec's "affine transform (reference potential plus
    scale factor times dimensionless value)" and "positive-electrode minus
    negative-electrode values" read the four binary nodes as the arithmetic of
    the reals; [rho] gives the value of every other node (parameters,
    variables, broadcasts, integrals, boundary values), so that a statement
    for every [rho] holds whatever those operators compute. *)
Fixpoint eval (rho : Symbol -> R) (s : Symbol) : R :=
  match s with
  | Scalar value => Q2R value
  | Addition l r => eval rho l + eval rho r
  | Subtraction l r => eval rho l - eval rho r
  | Multiplication l r => eval rho l * eval rho r
  | Division l r => eval rho l / eval rho r
  | _ => rho s
  end.

Declare Scope symbol_scope.
Delimit Scope symbol_scope with sym.
Bind Scope symbol_scope with Symbol.
Infix "+" := Addition : symbol_scope.
Infix "-" := Subtraction : symbol_scope.
Infix "*" := Multiplication : symbol_scope.
Infix "/" := Division : symbol_scope.

(** Modelled from the spec: the module [pybamm.standard_spatial_vars], of
    which the submodel reads the spatial variable of each electrode. *)
Module standard_spatial_vars.
Definition x_n : Symbol := SpatialVariable "x_n" ["negative electrode"].
Definition x_p : Symbol := SpatialVariable "x_p" ["positive electrode"].
End standard_spatial_vars.

(** The parameter bundle handed to a submodel: the attributes that
    [potential.py] reads from it, each an expression. *)
Record Parameters : Type := {
  l_n : Symbol;
  l_p : Symbol;
  U_n_ref : Symbol;
  U_p_ref : Symbol;
  potential_scale : Symbol;
}.

End pybamm.

Import pybamm.

(** ** The submodel *)

(** [class Potential(pybamm.SubModel)]: its only state is the parameter bundle
    stored by [__init__]. *)
Record Potential : Type := { set_of_parameters : Parameters }.

(** The returned [dict], from variable names to expressions. *)
Abbreviation Variables := (gmap string Symbol).

Definition get_derived_open_circuit_potentials
    (self : Potential) (ocp_n ocp_p : Symbol) : Variables :=
  (* Load parameters and spatial variables *)
  let param := set_of_parameters self in
  let x_n := standard_spatial_vars.x_n in
  let x_p := standard_spatial_vars.x_p in
  (* Broadcast if necessary *)
  let ocp_n :=
    if decide (domain ocp_n = []) then Broadcast ocp_n ["negative electrode"]
    else ocp_n in
  let ocp_p :=
    if decide (domain ocp_p = []) then Broadcast ocp_p ["positive electrode"]
    else ocp_p in
  (* Dimensionless *)
  let ocp_n_av := (Integral ocp_n x_n / l_n param)%sym in
  let ocp_p_av := (Integral ocp_p x_p / l_p param)%sym in
  let ocp_n_left := BoundaryValue ocp_n "left" in
  let ocp_p_right := BoundaryValue ocp_p "right" in
  let ocv_av := (ocp_p_av - ocp_n_av)%sym in
  let ocv := (ocp_p_right - ocp_n_left)%sym in
  (* Dimensional *)
  let ocp_n_dim := (U_n_ref param + potential_scale param * ocp_n)%sym in
  let ocp_p_dim := (U_p_ref param + potential_scale param * ocp_p)%sym in
  let ocp_n_av_dim := (U_n_ref param + potential_scale param * ocp_n_av)%sym in
  let ocp_p_av_dim := (U_p_ref param + potential_scale param * ocp_p_av)%sym in
  let ocp_n_left_dim :=
    (U_n_ref param + potential_scale param * ocp_n_left)%sym in
  let ocp_p_right_dim :=
    (U_p_ref param + potential_scale param * ocp_p_right)%sym in
  let ocv_av_dim := (ocp_p_av_dim - ocp_n_av_dim)%sym in
  let ocv_dim := (ocp_p_right_dim - ocp_n_left_dim)%sym in
  (* Variables *)
  list_to_map [
    ("Negative electrode open circuit potential", ocp_n);
    ("Positive electrode open circuit potential", ocp_p);
    ("Average negative electrode open circuit potential", ocp_n_av);
    ("Average positive electrode open circuit potential", ocp_p_av);
    ("Average open circuit voltage", ocv_av);
    ("Measured open circuit voltage", ocv);
    ("Negative electrode open circuit potential [V]", ocp_n_dim);
    ("Positive electrode open circuit potential [V]", ocp_p_dim);
    ("Average negative electrode open circuit potential [V]", ocp_n_av_dim);
    ("Average positive electrode open circuit potential [V]", ocp_p_av_dim);
    ("Average open circuit voltage [V]", ocv_av_dim);
    ("Measured open circuit voltage [V]", ocv_dim)
  ].

Definition get_derived_reaction_overpotentials
    (self : Potential) (eta_r_n eta_r_p : Symbol) : Variables :=
  (* Load parameters and spatial variables *)
  let param := set_of_parameters self in
  let x_n := standard_spatial_vars.x_n in
  let x_p := standard_spatial_vars.x_p in
  (* Broadcast if necessary *)
  let eta_r_n :=
    if decide (domain eta_r_n = []) then Broadcast eta_r_n ["negative electrode"]
    else eta_r_n in
  let eta_r_p :=
    if decide (domain eta_r_p = []) then Broadcast eta_r_p ["positive electrode"]
    else eta_r_p in
  (* Derived and dimensional reaction overpotentials *)
  let eta_r_n_av := (Integral eta_r_n x_n / l_n param)%sym in
  let eta_r_p_av := (Integral eta_r_p x_p / l_p param)%sym in
  let eta_r_av := (eta_r_p_av - eta_r_n_av)%sym in
  let eta_r_n_dim := (potential_scale param * eta_r_n)%sym in
  let eta_r_p_dim := (potential_scale param * eta_r_p)%sym in
  let eta_r_n_av_dim := (potential_scale param * eta_r_n_av)%sym in
  let eta_r_p_av_dim := (potential_scale param * eta_r_p_av)%sym in
  let eta_r_av_dim := (potential_scale param * eta_r_av)%sym in
  (* Update variables *)
  list_to_map [
    ("Negative reaction overpotential", eta_r_n);
    ("Positive reaction overpotential", eta_r_p);
    ("Average negative reaction overpotential", eta_r_n_av);
    ("Average positive reaction overpotential", eta_r_p_av);
    ("Average reaction overpotential", eta_r_av);
    ("Negative reaction overpotential [V]", eta_r_n_dim);
    ("Positive reaction overpotential [V]", eta_r_p_dim);
    ("Average negative reaction overpotential [V]", eta_r_n_av_dim);
    ("Average positive reaction overpotential [V]", eta_r_p_av_dim);
    ("Average reaction overpotential [V]", eta_r_av_dim)
  ].

(** ** The same two methods over a store of objects

    Python passes expressions by reference, and the instance keeps its
    parameters in an attribute.  To speak about what a call may change, the
    methods are embedded a second time over an explicit store: every
    expression is an object at a location, and a method is a state
    transformer that may raise. *)

Module Heap.

Abbreviation loc := positive.

(** Modelled from the spec: an expression object of the host framework, its
    children held by reference, together with its [domain] attribute. *)
Inductive node : Type :=
| NScalar (value : Q)
| NParameter (name : string)
| NVariable (name : string)
| NSpatialVariable (name : string)
| NBroadcast (child : loc)
| NIntegral (child integration_variable : loc)
| NBoundaryValue (child : loc) (side : string)
| NAddition (left right : loc)
| NSubtraction (left right : loc)
| NMultiplication (left right : loc)
| NDivision (left right : loc).

Record object : Type := { shape : node; domain : list string }.

(** The parameter bundle, each attribute a reference to an expression. *)
Record Parameters : Type := {
  l_n : loc;
  l_p : loc;
  U_n_ref : loc;
  U_p_ref : loc;
  potential_scale : loc;
}.

(** Everything a call can reach: the expression objects, the attribute
    [set_of_parameters] of the instance, and the two attributes of the module
    [pybamm.standard_spatial_vars] that the methods read. *)
Record world : Type := {
  objects : gmap loc object;
  self_set_of_parameters : Parameters;
  x_n : loc;
  x_p : loc;
}.

Inductive Exception : Type :=
| AttributeError.

(** A computation either returns or raises, and leaves a world behind. *)
Definition M (A : Type) : Type := world -> (Exception + A) * world.

#[global] Instance M_ret : MRet M := fun A a w => (inr a, w).

#[global] Instance M_bind : MBind M := fun A B f m w =>
  match m w with
  | (inr a, w') => f a w'
  | (inl e, w') => (inl e, w')
  end.

(** [self.set_of_parameters] *)
Definition get_set_of_parameters : M Parameters :=
  fun w => (inr (self_set_of_parameters w), w).

(** [pybamm.standard_spatial_vars.x_n] and [.x_p] *)
Definition get_x_n : M loc := fun w => (inr (x_n w), w).
Definition get_x_p : M loc := fun w => (inr (x_p w), w).

(** [s.domain]: fails when [s] is not an expression object. *)
Definition get_domain (s : loc) : M (list string) :=
  fun w =>
    match objects w !! s with
    | Some o => (inr (domain o), w)
    | None => (inl AttributeError, w)
    end.

(** Object creation: the new object gets a location that is not in use, and
    no existing object is touched. *)
Definition new (o : object) : M loc :=
  fun w =>
    let l := fresh (dom (objects w)) in
    (inr l,
     {| objects := <[l := o]> (objects w);
        self_set_of_parameters := self_set_of_parameters w;
        x_n := x_n w;
        x_p := x_p w |}).

(** Modelled from the spec: the constructors of the host framework, each
    "expression construction" and nothing more. *)
Definition Broadcast (child : loc) (d : list string) : M loc :=
  new {| shape := NBroadcast child; domain := d |}.

Definition Integral (child integration_variable : loc) : M loc :=
  new {| shape := NIntegral child integration_variable; domain := [] |}.

Definition BoundaryValue (child : loc) (side : string) : M loc :=
  new {| shape := NBoundaryValue child side; domain := [] |}.

Definition BinaryOperator (mk : loc -> loc -> node) (left right : loc) : M loc :=
  dl ← get_domain left;
  dr ← get_domain right;
  new {| shape := mk left right;
         domain := match dl with [] => dr | _ :: _ => dl end |}.

Definition Addition := BinaryOperator NAddition.
Definition Subtraction := BinaryOperator NSubtraction.
Definition Multiplication := BinaryOperator NMultiplication.
Definition Division := BinaryOperator NDivision.

Definition get_derived_open_circuit_potentials
    (ocp_n ocp_p : loc) : M (gmap string loc) :=
  (* Load parameters and spatial variables *)
  param ← get_set_of_parameters;
  x_n ← get_x_n;
  x_p ← get_x_p;
  (* Broadcast if necessary *)
  d ← get_domain ocp_n;
  ocp_n ← (if decide (d = []) then Broadcast ocp_n ["negative electrode"]
           else mret ocp_n);
  d ← get_domain ocp_p;
  ocp_p ← (if decide (d = []) then Broadcast ocp_p ["positive electrode"]
           else mret ocp_p);
  (* Dimensionless *)
  i ← Integral ocp_n x_n;
  ocp_n_av ← Division i (l_n param);
  i ← Integral ocp_p x_p;
  ocp_p_av ← Division i (l_p param);
  ocp_n_left ← BoundaryValue ocp_n "left";
  ocp_p_right ← BoundaryValue ocp_p "right";
  ocv_av ← Subtraction ocp_p_av ocp_n_av;
  ocv ← Subtraction ocp_p_right ocp_n_left;
  (* Dimensional *)
  t ← Multiplication (potential_scale param) ocp_n;
  ocp_n_dim ← Addition (U_n_ref param) t;
  t ← Multiplication (potential_scale param) ocp_p;
  ocp_p_dim ← Addition (U_p_ref param) t;
  t ← Multiplication (potential_scale param) ocp_n_av;
  ocp_n_av_dim ← Addition (U_n_ref param) t;
  t ← Multiplication (potential_scale param) ocp_p_av;
  ocp_p_av_dim ← Addition (U_p_ref param) t;
  t ← Multiplication (potential_scale param) ocp_n_left;
  ocp_n_left_dim ← Addition (U_n_ref param) t;
  t ← Multiplication (potential_scale param) ocp_p_right;
  ocp_p_right_dim ← Addition (U_p_ref param) t;
  ocv_av_dim ← Subtraction ocp_p_av_dim ocp_n_av_dim;
  ocv_dim ← Subtraction ocp_p_right_dim ocp_n_left_dim;
  (* Variables *)
  mret (list_to_map [
    ("Negative electrode open circuit potential", ocp_n);
    ("Positive electrode open circuit potential", ocp_p);
    ("Average negative electrode open circuit potential", ocp_n_av);
    ("Average positive electrode open circuit potential", ocp_p_av);
    ("Average open circuit voltage", ocv_av);
    ("Measured open circuit voltage", ocv);
    ("Negative electrode open circuit potential [V]", ocp_n_dim);
    ("Positive electrode open circuit potential [V]", ocp_p_dim);
    ("Average negative electrode open circuit potential [V]", ocp_n_av_dim);
    ("Average positive electrode open circuit potential [V]", ocp_p_av_dim);
    ("Average open circuit voltage [V]", ocv_av_dim);
    ("Measured open circuit voltage [V]", ocv_dim)
  ]).

Definition get_derived_reaction_overpotentials
    (eta_r_n eta_r_p : loc) : M (gmap string loc) :=
  (* Load parameters and spatial variables *)
  param ← get_set_of_parameters;
  x_n ← get_x_n;
  x_p ← get_x_p;
  (* Broadcast if necessary *)
  d ← get_domain eta_r_n;
  eta_r_n ← (if decide (d = []) then Broadcast eta_r_n ["negative electrode"]
             else mret eta_r_n);
  d ← get_domain eta_r_p;
  eta_r_p ← (if decide (d = []) then Broadcast eta_r_p ["positive electrode"]
             else mret eta_r_p);
  (* Derived and dimensional reaction overpotentials *)
  i ← Integral eta_r_n x_n;
  eta_r_n_av ← Division i (l_n param);
  i ← Integral eta_r_p x_p;
  eta_r_p_av ← Division i (l_p param);
  eta_r_av ← Subtraction eta_r_p_av eta_r_n_av;
  eta_r_n_dim ← Multiplication (potential_scale param) eta_r_n;
  eta_r_p_dim ← Multiplication (potential_scale param) eta_r_p;
  eta_r_n_av_dim ← Multiplication (potential_scale param) eta_r_n_av;
  eta_r_p_av_dim ← Multiplication (potential_scale param) eta_r_p_av;
  eta_r_av_dim ← Multiplication (potential_scale param) eta_r_av;
  (* Update variables *)
  mret (list_to_map [
    ("Negative reaction overpotential", eta_r_n);
    ("Positive reaction overpotential", eta_r_p);
    ("Average negative reaction overpotential", eta_r_n_av);
    ("Average positive reaction overpotential", eta_r_p_av);
    ("Average reaction overpotential", eta_r_av);
    ("Negative reaction overpotential [V]", eta_r_n_dim);
    ("Positive reaction overpotential [V]", eta_r_p_dim);
    ("Average negative reaction overpotential [V]", eta_r_n_av_dim);
    ("Average positive reaction overpotential [V]", eta_r_p_av_dim);
    ("Average reaction overpotential [V]", eta_r_av_dim)
  ]).

(** [represents h l s]: the object at [l] in the store [h], followed through
    its references, is the expression tree [s]. *)
Inductive represents (h : gmap loc object) : loc -> Symbol -> Prop :=
| rep_Scalar l v :
    h !! l = Some {| shape := NScalar v; domain := [] |} ->
    represents h l (Scalar v)
| rep_Parameter l name :
    h !! l = Some {| shape := NParameter name; domain := [] |} ->
    represents h l (ParameterSym name)
| rep_Variable l name d :
    h !! l = Some {| shape := NVariable name; domain := d |} ->
    represents h l (VariableSym name d)
| rep_SpatialVariable l name d :
    h !! l = Some {| shape := NSpatialVariable name; domain := d |} ->
    represents h l (SpatialVariable name d)
| rep_Broadcast l c d s :
    h !! l = Some {| shape := NBroadcast c; domain := d |} ->
    represents h c s ->
    represents h l (pybamm.Broadcast s d)
| rep_Integral l c v s x :
    h !! l = Some {| shape := NIntegral c v; domain := [] |} ->
    represents h c s -> represents h v x ->
    represents h l (pybamm.Integral s x)
| rep_BoundaryValue l c side s :
    h !! l = Some {| shape := NBoundaryValue c side; domain := [] |} ->
    represents h c s ->
    represents h l (pybamm.BoundaryValue s side)
| rep_Addition l a b s t :
    h !! l = Some {| shape := NAddition a b;
                     domain := pybamm.domain (s + t) |} ->
    represents h a s -> represents h b t ->
    represents h l (s + t)
| rep_Subtraction l a b s t :
    h !! l = Some {| shape := NSubtraction a b;
                     domain := pybamm.domain (s - t) |} ->
    represents h a s -> represents h b t ->
    represents h l (s - t)
| rep_Multiplication l a b s t :
    h !! l = Some {| shape := NMultiplication a b;
                     domain := pybamm.domain (s * t) |} ->
    represents h a s -> represents h b t ->
    represents h l (s * t)
| rep_Division l a b s t :
    h !! l = Some {| shape := NDivision a b;
                     domain := pybamm.domain (s / t) |} ->
    represents h a s -> represents h b t ->
    represents h l (s / t).

(** The world holds the submodel [self] and the framework's spatial
    variables. *)
Record holds (w : world) (self : Potential) : Prop := {
  holds_l_n :
    represents (objects w) (l_n (self_set_of_parameters w))
      (pybamm.l_n (set_of_parameters self));
  holds_l_p :
    represents (objects w) (l_p (self_set_of_parameters w))
      (pybamm.l_p (set_of_parameters self));
  holds_U_n_ref :
    represents (objects w) (U_n_ref (self_set_of_parameters w))
      (pybamm.U_n_ref (set_of_parameters self));
  holds_U_p_ref :
    represents (objects w) (U_p_ref (self_set_of_parameters w))
      (pybamm.U_p_ref (set_of_parameters self));
  holds_potential_scale :
    represents (objects w) (potential_scale (self_set_of_parameters w))
      (pybamm.potential_scale (set_of_parameters self));
  holds_x_n :
    represents (objects w) (x_n w) standard_spatial_vars.x_n;
  holds_x_p :
    represents (objects w) (x_p w) standard_spatial_vars.x_p;
}.

(** A call left everything that existed before it as it was. *)
Record unchanged (w w' : world) : Prop := {
  unchanged_objects : objects w ⊆ objects w';
  unchanged_self : self_set_of_parameters w' = self_set_of_parameters w;
  unchanged_x_n : x_n w' = x_n w;
  unchanged_x_p : x_p w' = x_p w;
}.

(** The returned dict of references stands for a dict of trees. *)
Definition represents_dict (h : gmap loc object)
    (d : gmap string loc) (v : Variables) : Prop :=
  map_Forall2 (fun _ => represents h) d v.

(** [returns m w post]: run from [w], the computation [m] returns (it does
    not raise), it leaves what existed unchanged, and its result and final
    world satisfy [post]. *)
Definition returns {A : Type} (m : M A) (w : world)
    (post : A -> world -> Prop) : Prop :=
  match m w with
  | (inr a, w') => unchanged w w' /\ post a w'
  | (inl _, _) => False
  end.

(** A world for the sample submodel: its five parameters at locations 1 to
    5, the two spatial variables at 6 and 7, the two sample fields at 8 and
    9. *)
Definition sample_world : world := {|
  objects := list_to_map [
    (1%positive, {| shape := NParameter "l_n"; domain := [] |});
    (2%positive, {| shape := NParameter "l_p"; domain := [] |});
    (3%positive, {| shape := NParameter "U_n_ref"; domain := [] |});
    (4%positive, {| shape := NParameter "U_p_ref"; domain := [] |});
    (5%positive, {| shape := NParameter "potential_scale"; domain := [] |});
    (6%positive, {| shape := NSpatialVariable "x_n";
                    domain := ["negative electrode"] |});
    (7%positive, {| shape := NSpatialVariable "x_p";
                    domain := ["positive electrode"] |});
    (8%positive, {| shape := NVariable "c_n";
                    domain := ["negative electrode"] |});
    (9%positive, {| shape := NVariable "c_p";
                    domain := ["positive electrode"] |})
  ];
  self_set_of_parameters := {|
    l_n := 1; l_p := 2; U_n_ref := 3; U_p_ref := 4; potential_scale := 5
  |};
  x_n := 6;
  x_p := 7;
|}.

End Heap.

(** ** Vocabulary of the statements *)

(** The expression a method goes on with after its "Broadcast if necessary"
    step, for the input [s] and the electrode domain [d]. *)
Abbreviation broadcast_if_necessary s d :=
  (if decide (domain s = []) then Broadcast s%sym d else s%sym) (only parsing).

(** Two entries of a returned mapping exist and stand in the relation [P]. *)
Definition related (m : Variables) (k k' : string)
    (P : Symbol -> Symbol -> Prop) : Prop :=
  exists v v', m !! k = Some v /\ m !! k' = Some v' /\ P v v'.

(** The value of the ["[V]"] entry of [k] is one electrode's reference
    potential plus the potential scale times the value of the entry [k]. *)
Definition affine_in_one_reference (rho : Symbol -> R) (self : Potential)
    (m : Variables) (k : string) : Prop :=
  let param := set_of_parameters self in
  related m k (k +:+ " [V]") (fun v v' =>
    eval rho v' =
      (eval rho (U_n_ref param) + eval rho (potential_scale param) * eval rho v)%R
    \/
    eval rho v' =
      (eval rho (U_p_ref param) + eval rho (potential_scale param) * eval rho v)%R).

(** Does the expression contain a boundary-value node? *)
Fixpoint has_boundary_value (s : Symbol) : bool :=
  match s with
  | BoundaryValue _ _ => true
  | Broadcast c _ => has_boundary_value c
  | Integral c x => has_boundary_value c || has_boundary_value x
  | Addition l r | Subtraction l r | Multiplication l r | Division l r =>
      has_boundary_value l || has_boundary_value r
  | _ => false
  end.

(** A submodel whose five parameters are named parameter leaves, a
    concentration-like field on each electrode, and a valuation in which the
    two reference potentials differ. *)
Definition sample_parameters : Parameters := {|
  l_n := ParameterSym "l_n";
  l_p := ParameterSym "l_p";
  U_n_ref := ParameterSym "U_n_ref";
  U_p_ref := ParameterSym "U_p_ref";
  potential_scale := ParameterSym "potential_scale";
|}.

Definition sample_submodel : Potential :=
  {| set_of_parameters := sample_parameters |}.

Definition sample_field_n : Symbol := VariableSym "c_n" ["negative electrode"].
Definition sample_field_p : Symbol := VariableSym "c_p" ["positive electrode"].

Definition sample_rho (s : Symbol) : R :=
  match s with
  | ParameterSym name =>
      if String.eqb name "U_n_ref" then 1%R
      else if String.eqb name "U_p_ref" then 3%R
      else if String.eqb name "potential_scale" then 2%R
      else 1%R
  | Integral _ (SpatialVariable name _) =>
      if String.eqb name "x_p" then 4%R else 1%R
  | _ => 0%R
  end.

(** Of a returned dict of references [d], after a call on the inputs [e_n]
    and [e_p] (standing for [s_n] and [s_p]) in the world [w]: the
    per-electrode entry named [k_n] (resp. [k_p]) is the input object itself
    when the input has a domain and an object that did not exist in [w]
    otherwise, and every other entry is an object that did not exist in
    [w]. *)
Definition inputs_or_new (w : Heap.world) (k_n k_p : string)
    (e_n e_p : positive) (s_n s_p : Symbol) (d : gmap string positive) : Prop :=
  (exists l_n l_p,
    d !! k_n = Some l_n /\
    d !! k_p = Some l_p /\
    (if decide (domain s_n = []) then Heap.objects w !! l_n = None
     else l_n = e_n) /\
    (if decide (domain s_p = []) then Heap.objects w !! l_p = None
     else l_p = e_p)) /\
  (forall k l, d !! k = Some l -> k <> k_n -> k <> k_p ->
    Heap.objects w !! l = None).

(** ** Facts about expressions *)

Lemma Broadcast_neq (s : Symbol) (d : list string) : Broadcast s d <> s.
Proof.
  revert d. induction s; intros d' H; try discriminate.
  injection H as H _. by apply IHs in H.
Qed.

Lemma has_boundary_value_broadcast_if_necessary (s : Symbol) (d : list string) :
  has_boundary_value (broadcast_if_necessary s d) = has_boundary_value s.
Proof. by destruct (decide (domain s = [])). Qed.

(** ** The open-circuit potentials *)

Ltac lookup := vm_compute; reflexivity.
Ltac relate := do 2 eexists; split; [lookup | split; [lookup | ]].

(** C1 (as amended).  The four per-electrode ["[V]"] entries are the
    electrode's reference potential plus the potential scale times the
    dimensionless entry.  The two open-circuit-voltage ["[V]"] entries are the
    positive electrode's dimensional quantity minus the negative electrode's;
    their value is the difference of the two reference potentials plus the
    potential scale times the dimensionless voltage. *)
Theorem ocp_dimensional_entries (self : Potential) (ocp_n ocp_p : Symbol) :
  let param := set_of_parameters self in
  let r := get_derived_open_circuit_potentials self ocp_n ocp_p in
  let n := broadcast_if_necessary ocp_n ["negative electrode"] in
  let p := broadcast_if_necessary ocp_p ["positive electrode"] in
  related r "Negative electrode open circuit potential"
    "Negative electrode open circuit potential [V]"
    (fun v v' => v' = (U_n_ref param + potential_scale param * v)%sym) /\
  related r "Positive electrode open circuit potential"
    "Positive electrode open circuit potential [V]"
    (fun v v' => v' = (U_p_ref param + potential_scale param * v)%sym) /\
  related r "Average negative electrode open circuit potential"
    "Average negative electrode open circuit potential [V]"
    (fun v v' => v' = (U_n_ref param + potential_scale param * v)%sym) /\
  related r "Average positive electrode open circuit potential"
    "Average positive electrode open circuit potential [V]"
    (fun v v' => v' = (U_p_ref param + potential_scale param * v)%sym) /\
  related r "Average negative electrode open circuit potential [V]"
    "Average positive electrode open circuit potential [V]"
    (fun n' p' => r !! "Average open circuit voltage [V]" = Some (p' - n')%sym) /\
  r !! "Measured open circuit voltage [V]" =
    Some ((U_p_ref param + potential_scale param * BoundaryValue p "right")
          - (U_n_ref param + potential_scale param * BoundaryValue n "left"))%sym /\
  (forall rho : Symbol -> R,
    related r "Average open circuit voltage" "Average open circuit voltage [V]"
      (fun v v' => eval rho v' =
        ((eval rho (U_p_ref param) - eval rho (U_n_ref param))
         + eval rho (potential_scale param) * eval rho v)%R) /\
    related r "Measured open circuit voltage" "Measured open circuit voltage [V]"
      (fun v v' => eval rho v' =
        ((eval rho (U_p_ref param) - eval rho (U_n_ref param))
         + eval rho (potential_scale param) * eval rho v)%R)).
Proof.
  intros param r n p.
  split_and!; try (relate; reflexivity); try lookup.
  intros rho.
  set (n_av := (Integral n standard_spatial_vars.x_n / l_n param)%sym).
  set (p_av := (Integral p standard_spatial_vars.x_p / l_p param)%sym).
  set (n_left := BoundaryValue n "left").
  set (p_right := BoundaryValue p "right").
  split.
  - exists (p_av - n_av)%sym,
      ((U_p_ref param + potential_scale param * p_av)
       - (U_n_ref param + potential_scale param * n_av))%sym.
    split_and!; [lookup | lookup | cbn [eval]; ring].
  - exists (p_right - n_left)%sym,
      ((U_p_ref param + potential_scale param * p_right)
       - (U_n_ref param + potential_scale param * n_left))%sym.
    split_and!; [lookup | lookup | cbn [eval]; ring].
Qed.

(** The sample values: the average open-circuit voltage is 3 and the one in
    volts is 8, that is (3 - 1) + 2 * 3. *)
Example sample_average_voltage_values :
  related
    (get_derived_open_circuit_potentials sample_submodel
       sample_field_n sample_field_p)
    "Average open circuit voltage" "Average open circuit voltage [V]"
    (fun v v' => eval sample_rho v = 3%R /\ eval sample_rho v' = 8%R).
Proof. relate. cbn. lra. Qed.

(** C1 as the spec words it fails on the two voltage entries: with reference
    potentials of value 1 and 3, a potential scale of 2 and electrode averages
    of 1 and 4, the average open-circuit voltage is 3 and its value in volts
    is 8, which is neither 1 + 2 * 3 nor 3 + 2 * 3. *)
Lemma ocv_dim_not_affine_in_one_reference :
  ~ affine_in_one_reference sample_rho sample_submodel
      (get_derived_open_circuit_potentials sample_submodel
         sample_field_n sample_field_p)
      "Average open circuit voltage".
Proof.
  intros (v & v' & Hv & Hv' & H).
  vm_compute in Hv. vm_compute in Hv'.
  injection Hv as <-. injection Hv' as <-.
  cbn in H. lra.
Qed.

(** C2.  The measured open-circuit voltage is the boundary value of the
    positive-electrode expression at its right face minus the boundary value
    of the negative-electrode expression at its left face, and the average
    open-circuit voltage is the positive electrode's average entry minus the
    negative electrode's. *)
Theorem ocp_voltages (self : Potential) (ocp_n ocp_p : Symbol) :
  let r := get_derived_open_circuit_potentials self ocp_n ocp_p in
  related r "Negative electrode open circuit potential"
    "Positive electrode open circuit potential"
    (fun n p =>
      n = broadcast_if_necessary ocp_n ["negative electrode"] /\
      p = broadcast_if_necessary ocp_p ["positive electrode"] /\
      r !! "Measured open circuit voltage" =
        Some (BoundaryValue p "right" - BoundaryValue n "left")%sym) /\
  related r "Average negative electrode open circuit potential"
    "Average positive electrode open circuit potential"
    (fun n_av p_av =>
      r !! "Average open circuit voltage" = Some (p_av - n_av)%sym).
Proof.
  intros r. split.
  - relate. split_and!; reflexivity.
  - relate. reflexivity.
Qed.

(** C3.  In both methods the average entry of each electrode is the integral
    of the electrode's expression, broadcast if necessary, over the
    electrode's spatial variable, divided by the electrode's length. *)
Theorem averages_are_length_normalized_integrals
    (self : Potential) (e_n e_p : Symbol) :
  let param := set_of_parameters self in
  let n := broadcast_if_necessary e_n ["negative electrode"] in
  let p := broadcast_if_necessary e_p ["positive electrode"] in
  let r := get_derived_open_circuit_potentials self e_n e_p in
  let r' := get_derived_reaction_overpotentials self e_n e_p in
  r !! "Average negative electrode open circuit potential" =
    Some (Integral n standard_spatial_vars.x_n / l_n param)%sym /\
  r !! "Average positive electrode open circuit potential" =
    Some (Integral p standard_spatial_vars.x_p / l_p param)%sym /\
  r' !! "Average negative reaction overpotential" =
    Some (Integral n standard_spatial_vars.x_n / l_n param)%sym /\
  r' !! "Average positive reaction overpotential" =
    Some (Integral p standard_spatial_vars.x_p / l_p param)%sym /\
  domain standard_spatial_vars.x_n = ["negative electrode"] /\
  domain standard_spatial_vars.x_p = ["positive electrode"] /\
  forall rho : Symbol -> R,
    eval rho (Integral n standard_spatial_vars.x_n / l_n param) =
      (rho (Integral n standard_spatial_vars.x_n) / eval rho (l_n param))%R /\
    eval rho (Integral p standard_spatial_vars.x_p / l_p param) =
      (rho (Integral p standard_spatial_vars.x_p) / eval rho (l_p param))%R.
Proof.
  intros param n p r r'. split_and!; try lookup. intros rho. by split.
Qed.

(** The per-electrode entries of both methods. *)
Lemma per_electrode_entries (self : Potential) (e_n e_p : Symbol) :
  get_derived_open_circuit_potentials self e_n e_p
    !! "Negative electrode open circuit potential"
    = Some (broadcast_if_necessary e_n ["negative electrode"]) /\
  get_derived_reaction_overpotentials self e_n e_p
    !! "Negative reaction overpotential"
    = Some (broadcast_if_necessary e_n ["negative electrode"]) /\
  get_derived_open_circuit_potentials self e_n e_p
    !! "Positive electrode open circuit potential"
    = Some (broadcast_if_necessary e_p ["positive electrode"]) /\
  get_derived_reaction_overpotentials self e_n e_p
    !! "Positive reaction overpotential"
    = Some (broadcast_if_necessary e_p ["positive electrode"]).
Proof. split_and!; lookup. Qed.

(** C4.  In both methods the per-electrode entry is the input broadcast to its
    electrode's domain exactly when the input's domain is the empty list, and
    is the input itself exactly when its domain is not empty. *)
Theorem broadcast_iff_domain_empty (self : Potential) (e_n e_p : Symbol) :
  let r := get_derived_open_circuit_potentials self e_n e_p in
  let r' := get_derived_reaction_overpotentials self e_n e_p in
  let k_n := "Negative electrode open circuit potential" in
  let k_p := "Positive electrode open circuit potential" in
  let k_n' := "Negative reaction overpotential" in
  let k_p' := "Positive reaction overpotential" in
  (r !! k_n = Some (broadcast_if_necessary e_n ["negative electrode"]) /\
   r' !! k_n' = r !! k_n /\
   (r !! k_n = Some (Broadcast e_n ["negative electrode"]) <-> domain e_n = []) /\
   (r !! k_n = Some e_n <-> domain e_n <> [])) /\
  (r !! k_p = Some (broadcast_if_necessary e_p ["positive electrode"]) /\
   r' !! k_p' = r !! k_p /\
   (r !! k_p = Some (Broadcast e_p ["positive electrode"]) <-> domain e_p = []) /\
   (r !! k_p = Some e_p <-> domain e_p <> [])).
Proof.
  intros r r' k_n k_p k_n' k_p'.
  assert (Hn : r !! k_n =
    Some (broadcast_if_necessary e_n ["negative electrode"])) by lookup.
  assert (Hp : r !! k_p =
    Some (broadcast_if_necessary e_p ["positive electrode"])) by lookup.
  split; split_and!; try lookup.
  - rewrite Hn. destruct (decide (domain e_n = [])) as [He|He]; [done|].
    split; [|done]. intros [= H]. symmetry in H. by apply Broadcast_neq in H.
  - rewrite Hn. destruct (decide (domain e_n = [])) as [He|He]; [|done].
    split; [|done]. intros [= H]. by apply Broadcast_neq in H.
  - rewrite Hp. destruct (decide (domain e_p = [])) as [He|He]; [done|].
    split; [|done]. intros [= H]. symmetry in H. by apply Broadcast_neq in H.
  - rewrite Hp. destruct (decide (domain e_p = [])) as [He|He]; [|done].
    split; [|done]. intros [= H]. by apply Broadcast_neq in H.
Qed.

(** C5.  The mapping returned by [get_derived_open_circuit_potentials] has
    exactly twelve entries: the two open-circuit potentials, their two
    averages, the average and the measured open-circuit voltage, and the six
    of them in volts. *)
Theorem ocp_twelve_entries (self : Potential) (ocp_n ocp_p : Symbol) :
  let r := get_derived_open_circuit_potentials self ocp_n ocp_p in
  let names := [
    "Negative electrode open circuit potential";
    "Positive electrode open circuit potential";
    "Average negative electrode open circuit potential";
    "Average positive electrode open circuit potential";
    "Average open circuit voltage";
    "Measured open circuit voltage"
  ] in
  dom r = list_to_set (names ++ ((fun k => k +:+ " [V]") <$> names))%list /\
  NoDup (names ++ ((fun k => k +:+ " [V]") <$> names))%list /\
  size r = 12.
Proof.
  intros r names. split_and!.
  - lookup.
  - apply (bool_decide_unpack _). by vm_compute.
  - lookup.
Qed.

(** ** The reaction overpotentials *)

(** C6.  The mapping returned by [get_derived_reaction_overpotentials] has
    exactly ten entries: the two reaction overpotentials, their two averages,
    the average reaction overpotential (positive minus negative), and the five
    of them in volts.  None is a measured (boundary-value) quantity: a
    boundary-value node occurs in an entry only if the inputs or the
    parameters already contain one. *)
Theorem eta_ten_entries (self : Potential) (eta_r_n eta_r_p : Symbol) :
  let param := set_of_parameters self in
  let r := get_derived_reaction_overpotentials self eta_r_n eta_r_p in
  let names := [
    "Negative reaction overpotential";
    "Positive reaction overpotential";
    "Average negative reaction overpotential";
    "Average positive reaction overpotential";
    "Average reaction overpotential"
  ] in
  dom r = list_to_set (names ++ ((fun k => k +:+ " [V]") <$> names))%list /\
  NoDup (names ++ ((fun k => k +:+ " [V]") <$> names))%list /\
  size r = 10 /\
  related r "Average negative reaction overpotential"
    "Average positive reaction overpotential"
    (fun n_av p_av =>
      r !! "Average reaction overpotential" = Some (p_av - n_av)%sym) /\
  map_Forall (fun _ v =>
    has_boundary_value v =
      has_boundary_value v &&
      (has_boundary_value eta_r_n || has_boundary_value eta_r_p
       || has_boundary_value (l_n param) || has_boundary_value (l_p param)
       || has_boundary_value (potential_scale param))) r.
Proof.
  intros param r names. split_and!.
  - lookup.
  - apply (bool_decide_unpack _). by vm_compute.
  - lookup.
  - relate. reflexivity.
  - intros k v H. apply elem_of_list_to_map_2 in H.
    repeat (apply elem_of_cons in H as [H|H]);
      try (by apply elem_of_nil in H);
      injection H as _ ->; cbn [has_boundary_value standard_spatial_vars.x_n
                                 standard_spatial_vars.x_p];
      rewrite ?has_boundary_value_broadcast_if_necessary;
      repeat (destruct (has_boundary_value _)); reflexivity.
Qed.

(** C7.  In [get_derived_reaction_overpotentials] each of the five ["[V]"]
    entries is the potential scale times its dimensionless entry, with no
    reference potential added. *)
Theorem eta_dimensional_entries (self : Potential) (eta_r_n eta_r_p : Symbol) :
  let param := set_of_parameters self in
  let r := get_derived_reaction_overpotentials self eta_r_n eta_r_p in
  let scaled := fun v v' : Symbol => v' = (potential_scale param * v)%sym in
  related r "Negative reaction overpotential"
    "Negative reaction overpotential [V]" scaled /\
  related r "Positive reaction overpotential"
    "Positive reaction overpotential [V]" scaled /\
  related r "Average negative reaction overpotential"
    "Average negative reaction overpotential [V]" scaled /\
  related r "Average positive reaction overpotential"
    "Average positive reaction overpotential [V]" scaled /\
  related r "Average reaction overpotential"
    "Average reaction overpotential [V]" scaled /\
  forall (rho : Symbol -> R) (v : Symbol),
    eval rho (potential_scale param * v) =
      (eval rho (potential_scale param) * eval rho v)%R.
Proof.
  intros param r scaled. split_and!; try (relate; reflexivity). done.
Qed.

(** ** Both methods *)

(** C9.  In both methods, an input whose domain is not empty is returned as
    the per-electrode entry, as it is. *)
Theorem tagged_input_returned_as_is (self : Potential) (e_n e_p : Symbol) :
  (domain e_n <> [] ->
    get_derived_open_circuit_potentials self e_n e_p
      !! "Negative electrode open circuit potential" = Some e_n /\
    get_derived_reaction_overpotentials self e_n e_p
      !! "Negative reaction overpotential" = Some e_n) /\
  (domain e_p <> [] ->
    get_derived_open_circuit_potentials self e_n e_p
      !! "Positive electrode open circuit potential" = Some e_p /\
    get_derived_reaction_overpotentials self e_n e_p
      !! "Positive reaction overpotential" = Some e_p).
Proof.
  pose proof (per_electrode_entries self e_n e_p) as (Hn & Hn' & Hp & Hp').
  split; intros He.
  - rewrite Hn, Hn'. by destruct (decide (domain e_n = [])).
  - rewrite Hp, Hp'. by destruct (decide (domain e_p = [])).
Qed.

Lemma tagged_input_returned_as_is_witness :
  (domain sample_field_n <> [] /\ domain sample_field_p <> []) /\
  (get_derived_open_circuit_potentials sample_submodel sample_field_n
     sample_field_p !! "Negative electrode open circuit potential"
     = Some sample_field_n /\
   get_derived_reaction_overpotentials sample_submodel sample_field_n
     sample_field_p !! "Negative reaction overpotential"
     = Some sample_field_n) /\
  (get_derived_open_circuit_potentials sample_submodel sample_field_n
     sample_field_p !! "Positive electrode open circuit potential"
     = Some sample_field_p /\
   get_derived_reaction_overpotentials sample_submodel sample_field_n
     sample_field_p !! "Positive reaction overpotential"
     = Some sample_field_p).
Proof.
  assert (Hn : domain sample_field_n <> []) by discriminate.
  assert (Hp : domain sample_field_p <> []) by discriminate.
  destruct (tagged_input_returned_as_is sample_submodel sample_field_n
              sample_field_p) as [H1 H2].
  split; [split; assumption|]. split; [apply H1, Hn | apply H2, Hp].
Defined.

(** C10.  Taking volts commutes with taking the difference of the two
    electrodes.  The value of each open-circuit voltage in volts is the
    difference of the two reference potentials plus the potential scale times
    the dimensionless voltage; the value of the average reaction overpotential
    in volts is that of the positive electrode's average in volts minus that
    of the negative electrode's. *)
Theorem dimensional_difference_commutes
    (self : Potential) (e_n e_p : Symbol) (rho : Symbol -> R) :
  let param := set_of_parameters self in
  let r := get_derived_open_circuit_potentials self e_n e_p in
  let r' := get_derived_reaction_overpotentials self e_n e_p in
  let offset := fun v v' : Symbol =>
    eval rho v' =
      ((eval rho (U_p_ref param) - eval rho (U_n_ref param))
       + eval rho (potential_scale param) * eval rho v)%R in
  related r "Measured open circuit voltage"
    "Measured open circuit voltage [V]" offset /\
  related r "Average open circuit voltage"
    "Average open circuit voltage [V]" offset /\
  related r' "Average negative reaction overpotential [V]"
    "Average positive reaction overpotential [V]"
    (fun n' p' => exists v',
      r' !! "Average reaction overpotential [V]" = Some v' /\
      eval rho v' = (eval rho p' - eval rho n')%R).
Proof.
  intros param r r' offset.
  set (n := broadcast_if_necessary e_n ["negative electrode"]).
  set (p := broadcast_if_necessary e_p ["positive electrode"]).
  set (n_av := (Integral n standard_spatial_vars.x_n / l_n param)%sym).
  set (p_av := (Integral p standard_spatial_vars.x_p / l_p param)%sym).
  set (n_left := BoundaryValue n "left").
  set (p_right := BoundaryValue p "right").
  split_and!.
  - exists (p_right - n_left)%sym,
      ((U_p_ref param + potential_scale param * p_right)
       - (U_n_ref param + potential_scale param * n_left))%sym.
    split_and!; [lookup | lookup | unfold offset; cbn [eval]; ring].
  - exists (p_av - n_av)%sym,
      ((U_p_ref param + potential_scale param * p_av)
       - (U_n_ref param + potential_scale param * n_av))%sym.
    split_and!; [lookup | lookup | unfold offset; cbn [eval]; ring].
  - exists (potential_scale param * n_av)%sym,
      (potential_scale param * p_av)%sym.
    split_and!; [lookup | lookup | ].
    exists (potential_scale param * (p_av - n_av))%sym.
    split; [lookup | cbn [eval]; ring].
Qed.

(** ** What a call may change *)

Lemma unchanged_refl (w : Heap.world) : Heap.unchanged w w.
Proof. by split. Qed.

Lemma unchanged_trans (w1 w2 w3 : Heap.world) :
  Heap.unchanged w1 w2 -> Heap.unchanged w2 w3 -> Heap.unchanged w1 w3.
Proof.
  intros [H1 H2 H3 H4] [H1' H2' H3' H4']. split.
  - by etrans.
  - by rewrite H2'.
  - by rewrite H3'.
  - by rewrite H4'.
Qed.

(** An object that exists keeps standing for the same tree as the store
    grows. *)
Lemma represents_mono (h h' : gmap positive Heap.object) (l : positive)
    (s : Symbol) :
  h ⊆ h' -> Heap.represents h l s -> Heap.represents h' l s.
Proof.
  intros Hsub H.
  induction H; econstructor; eauto using lookup_weaken.
Qed.

(** The [domain] attribute of an object is the domain of its tree. *)
Lemma represents_domain (h : gmap positive Heap.object) (l : positive)
    (s : Symbol) :
  Heap.represents h l s ->
  exists o, h !! l = Some o /\ Heap.domain o = domain s.
Proof. destruct 1; eauto. Qed.

(** A location stands for at most one tree. *)
Lemma represents_inj (h : gmap positive Heap.object) (l : positive)
    (s s' : Symbol) :
  Heap.represents h l s -> Heap.represents h l s' -> s = s'.
Proof.
  intros H. revert s'.
  induction H; intros s' H'; inversion H'; subst; simplify_eq;
    f_equal; eauto.
Qed.

Lemma holds_mono (w w' : Heap.world) (self : Potential) :
  Heap.unchanged w w' -> Heap.holds w self -> Heap.holds w' self.
Proof.
  intros [Hsub Hself Hn Hp] [].
  split; rewrite ?Hself, ?Hn, ?Hp; eauto using represents_mono.
Qed.

Lemma returns_ret {A : Type} (a : A) (w : Heap.world)
    (post : A -> Heap.world -> Prop) :
  post a w -> Heap.returns (mret a) w post.
Proof. intros H. split; [apply unchanged_refl | done]. Qed.

Lemma returns_bind {A B : Type} (m : Heap.M A) (f : A -> Heap.M B)
    (w : Heap.world) (post : B -> Heap.world -> Prop) :
  Heap.returns m w
    (fun a w' => Heap.unchanged w w' -> Heap.returns (f a) w' post) ->
  Heap.returns (m ≫= f) w post.
Proof.
  unfold Heap.returns, mbind, Heap.M_bind.
  destruct (m w) as [[e|a] w']; [done|]. intros [Hw H].
  specialize (H Hw). destruct (f a w') as [[e|b] w'']; [done|].
  destruct H as [Hw' H]. eauto using unchanged_trans.
Qed.

Lemma returns_elim {A : Type} (m : Heap.M A) (w : Heap.world)
    (post : A -> Heap.world -> Prop) :
  Heap.returns m w post ->
  exists a w', m w = (inr a, w') /\ Heap.unchanged w w' /\ post a w'.
Proof.
  unfold Heap.returns. destruct (m w) as [[e|a] w']; [done|].
  intros [? ?]. eauto.
Qed.

Lemma returns_get_set_of_parameters (w : Heap.world)
    (post : Heap.Parameters -> Heap.world -> Prop) :
  post (Heap.self_set_of_parameters w) w ->
  Heap.returns Heap.get_set_of_parameters w post.
Proof. intros H. split; [apply unchanged_refl | done]. Qed.

Lemma returns_get_x_n (w : Heap.world)
    (post : positive -> Heap.world -> Prop) :
  post (Heap.x_n w) w -> Heap.returns Heap.get_x_n w post.
Proof. intros H. split; [apply unchanged_refl | done]. Qed.

Lemma returns_get_x_p (w : Heap.world)
    (post : positive -> Heap.world -> Prop) :
  post (Heap.x_p w) w -> Heap.returns Heap.get_x_p w post.
Proof. intros H. split; [apply unchanged_refl | done]. Qed.

Lemma returns_get_domain (w : Heap.world) (l : positive) (s : Symbol)
    (post : list string -> Heap.world -> Prop) :
  Heap.represents (Heap.objects w) l s ->
  post (domain s) w ->
  Heap.returns (Heap.get_domain l) w post.
Proof.
  intros (o & Ho & Hd)%represents_domain H.
  unfold Heap.returns, Heap.get_domain. rewrite Ho, Hd.
  split; [apply unchanged_refl | done].
Qed.

(** Creating an object touches no object that exists. *)
Lemma returns_new (w : Heap.world) (o : Heap.object)
    (post : positive -> Heap.world -> Prop) :
  (forall l w',
    Heap.objects w !! l = None ->
    Heap.objects w' = <[l := o]> (Heap.objects w) ->
    Heap.unchanged w w' ->
    post l w') ->
  Heap.returns (Heap.new o) w post.
Proof.
  intros H. unfold Heap.returns, Heap.new.
  assert (Hfresh : Heap.objects w !! fresh (dom (Heap.objects w)) = None)
    by apply not_elem_of_dom, is_fresh.
  assert (Hw : Heap.unchanged w
    {| Heap.objects :=
         <[fresh (dom (Heap.objects w)) := o]> (Heap.objects w);
       Heap.self_set_of_parameters := Heap.self_set_of_parameters w;
       Heap.x_n := Heap.x_n w;
       Heap.x_p := Heap.x_p w |}).
  { split; try done. by apply insert_subseteq. }
  split; [done|]. by apply H.
Qed.

Lemma returns_Broadcast (w : Heap.world) (c : positive) (s : Symbol)
    (d : list string) (post : positive -> Heap.world -> Prop) :
  Heap.represents (Heap.objects w) c s ->
  (forall l w', Heap.represents (Heap.objects w') l (Broadcast s d) ->
    post l w') ->
  Heap.returns (Heap.Broadcast c d) w post.
Proof.
  intros Hc H. apply returns_new. intros l w' Hl Hw' Hw. apply H.
  eapply Heap.rep_Broadcast.
  - rewrite Hw'. apply lookup_insert_eq.
  - eapply represents_mono; [apply Hw | done].
Qed.

Lemma returns_Integral (w : Heap.world) (c v : positive) (s x : Symbol)
    (post : positive -> Heap.world -> Prop) :
  Heap.represents (Heap.objects w) c s ->
  Heap.represents (Heap.objects w) v x ->
  (forall l w', Heap.represents (Heap.objects w') l (Integral s x) ->
    post l w') ->
  Heap.returns (Heap.Integral c v) w post.
Proof.
  intros Hc Hv H. apply returns_new. intros l w' Hl Hw' Hw. apply H.
  eapply Heap.rep_Integral.
  - rewrite Hw'. apply lookup_insert_eq.
  - eapply represents_mono; [apply Hw | done].
  - eapply represents_mono; [apply Hw | done].
Qed.

Lemma returns_BoundaryValue (w : Heap.world) (c : positive) (s : Symbol)
    (side : string) (post : positive -> Heap.world -> Prop) :
  Heap.represents (Heap.objects w) c s ->
  (forall l w', Heap.represents (Heap.objects w') l (BoundaryValue s side) ->
    post l w') ->
  Heap.returns (Heap.BoundaryValue c side) w post.
Proof.
  intros Hc H. apply returns_new. intros l w' Hl Hw' Hw. apply H.
  eapply Heap.rep_BoundaryValue.
  - rewrite Hw'. apply lookup_insert_eq.
  - eapply represents_mono; [apply Hw | done].
Qed.

Lemma returns_BinaryOperator (mk : positive -> positive -> Heap.node)
    (op : Symbol -> Symbol -> Symbol)
    (w : Heap.world) (a b : positive) (s t : Symbol)
    (post : positive -> Heap.world -> Prop) :
  (forall h l,
    h !! l = Some {| Heap.shape := mk a b;
                     Heap.domain := match domain s with
                                    | [] => domain t
                                    | _ :: _ => domain s
                                    end |} ->
    Heap.represents h a s -> Heap.represents h b t ->
    Heap.represents h l (op s t)) ->
  Heap.represents (Heap.objects w) a s ->
  Heap.represents (Heap.objects w) b t ->
  (forall l w', Heap.represents (Heap.objects w') l (op s t) -> post l w') ->
  Heap.returns (Heap.BinaryOperator mk a b) w post.
Proof.
  intros Hop Ha Hb H. unfold Heap.BinaryOperator.
  apply returns_bind. eapply returns_get_domain; [done|]. intros _.
  apply returns_bind. eapply returns_get_domain; [done|]. intros _.
  apply returns_new. intros l w' Hl Hw' Hw. apply H, Hop.
  - rewrite Hw'. apply lookup_insert_eq.
  - eapply represents_mono; [apply Hw | done].
  - eapply represents_mono; [apply Hw | done].
Qed.

Lemma returns_Addition w a b s t post :
  Heap.represents (Heap.objects w) a s ->
  Heap.represents (Heap.objects w) b t ->
  (forall l w', Heap.represents (Heap.objects w') l (s + t) -> post l w') ->
  Heap.returns (Heap.Addition a b) w post.
Proof. apply returns_BinaryOperator. intros. by eapply Heap.rep_Addition. Qed.

Lemma returns_Subtraction w a b s t post :
  Heap.represents (Heap.objects w) a s ->
  Heap.represents (Heap.objects w) b t ->
  (forall l w', Heap.represents (Heap.objects w') l (s - t) -> post l w') ->
  Heap.returns (Heap.Subtraction a b) w post.
Proof. apply returns_BinaryOperator. intros. by eapply Heap.rep_Subtraction. Qed.

Lemma returns_Multiplication w a b s t post :
  Heap.represents (Heap.objects w) a s ->
  Heap.represents (Heap.objects w) b t ->
  (forall l w', Heap.represents (Heap.objects w') l (s * t) -> post l w') ->
  Heap.returns (Heap.Multiplication a b) w post.
Proof.
  apply returns_BinaryOperator. intros. by eapply Heap.rep_Multiplication.
Qed.

Lemma returns_Division w a b s t post :
  Heap.represents (Heap.objects w) a s ->
  Heap.represents (Heap.objects w) b t ->
  (forall l w', Heap.represents (Heap.objects w') l (s / t) -> post l w') ->
  Heap.returns (Heap.Division a b) w post.
Proof. apply returns_BinaryOperator. intros. by eapply Heap.rep_Division. Qed.

(** Symbolic execution of a method body, one statement at a time. *)
Ltac lift :=
  repeat match goal with
  | Hw : Heap.unchanged ?w ?w', H : Heap.represents (Heap.objects ?w) _ _ |- _ =>
      apply (represents_mono _ _ _ _ (Heap.unchanged_objects _ _ Hw)) in H
  end.

Ltac read lem := apply returns_bind; apply lem; intros _.

Ltac read_domain :=
  apply returns_bind; eapply returns_get_domain; [eassumption|]; intros _.

Ltac construct lem :=
  eapply lem; [eassumption..|];
  let l := fresh "l" in
  let w' := fresh "w" in
  let H := fresh "H" in
  let Hw := fresh "Hw" in
  intros l w' H Hw; lift; clear Hw.

Ltac step lem := apply returns_bind; construct lem.

Ltac broadcast_if_necessary_step :=
  read_domain;
  apply returns_bind;
  match goal with
  | |- context [decide (domain ?s = [])] =>
      let E := fresh "E" in
      destruct (decide (domain s = [])) eqn:E;
      [ construct returns_Broadcast
      | apply returns_ret; intros _ ]
  end.

Ltac dict :=
  apply returns_ret; unfold Heap.represents_dict;
  rewrite !list_to_map_cons, !list_to_map_nil;
  repeat (apply map_Forall2_insert_2; [eassumption|]);
  apply map_Forall2_empty.

(** The method over the store computes, in fresh objects, the mapping that
    the method over trees computes. *)
Lemma store_get_derived_open_circuit_potentials
    (w : Heap.world) (self : Potential) (ocp_n ocp_p : positive)
    (s_n s_p : Symbol) :
  Heap.holds w self ->
  Heap.represents (Heap.objects w) ocp_n s_n ->
  Heap.represents (Heap.objects w) ocp_p s_p ->
  Heap.returns (Heap.get_derived_open_circuit_potentials ocp_n ocp_p) w
    (fun d w' =>
      Heap.represents_dict (Heap.objects w') d
        (get_derived_open_circuit_potentials self s_n s_p)).
Proof.
  intros [] Hn Hp.
  unfold Heap.get_derived_open_circuit_potentials,
    get_derived_open_circuit_potentials, standard_spatial_vars.x_n,
    standard_spatial_vars.x_p in *.
  cbv zeta.
  read returns_get_set_of_parameters.
  read returns_get_x_n.
  read returns_get_x_p.
  broadcast_if_necessary_step; broadcast_if_necessary_step.
  all: step returns_Integral; step returns_Division.
  all: step returns_Integral; step returns_Division.
  all: step returns_BoundaryValue; step returns_BoundaryValue.
  all: step returns_Subtraction; step returns_Subtraction.
  all: do 6 (step returns_Multiplication; step returns_Addition).
  all: step returns_Subtraction; step returns_Subtraction.
  all: dict.
Qed.

Lemma store_get_derived_reaction_overpotentials
    (w : Heap.world) (self : Potential) (eta_r_n eta_r_p : positive)
    (s_n s_p : Symbol) :
  Heap.holds w self ->
  Heap.represents (Heap.objects w) eta_r_n s_n ->
  Heap.represents (Heap.objects w) eta_r_p s_p ->
  Heap.returns (Heap.get_derived_reaction_overpotentials eta_r_n eta_r_p) w
    (fun d w' =>
      Heap.represents_dict (Heap.objects w') d
        (get_derived_reaction_overpotentials self s_n s_p)).
Proof.
  intros [] Hn Hp.
  unfold Heap.get_derived_reaction_overpotentials,
    get_derived_reaction_overpotentials, standard_spatial_vars.x_n,
    standard_spatial_vars.x_p in *.
  cbv zeta.
  read returns_get_set_of_parameters.
  read returns_get_x_n.
  read returns_get_x_p.
  broadcast_if_necessary_step; broadcast_if_necessary_step.
  all: step returns_Integral; step returns_Division.
  all: step returns_Integral; step returns_Division.
  all: step returns_Subtraction.
  all: do 5 step returns_Multiplication.
  all: dict.
Qed.

(** A dict of references stands for at most one dict of trees. *)
Lemma represents_dict_inj (h : gmap positive Heap.object)
    (d : gmap string positive) (v v' : Variables) :
  Heap.represents_dict h d v -> Heap.represents_dict h d v' -> v = v'.
Proof.
  intros H H'. apply map_eq. intros k.
  specialize (H k). specialize (H' k).
  destruct H as [l s Hs|]; inversion H' as [l' s' Hs'|]; [|done].
  f_equal. eauto using represents_inj.
Qed.

(** On the sample world the reaction-overpotential method returns; its two
    per-electrode entries are the input objects themselves, and it creates
    ten objects. *)
Example sample_call_runs :
  match Heap.get_derived_reaction_overpotentials 8 9 Heap.sample_world with
  | (inr d, w') =>
      d !! "Negative reaction overpotential" = Some 8%positive /\
      d !! "Positive reaction overpotential" = Some 9%positive /\
      d !! "Average reaction overpotential [V]" = Some 19%positive /\
      Heap.objects w' !! 19%positive =
        Some {| Heap.shape := Heap.NMultiplication 5 14; Heap.domain := [] |} /\
      size (Heap.objects w') = 19
  | (inl _, _) => False
  end.
Proof. vm_compute. split_and!; reflexivity. Qed.

(** Reading [domain] from something that is not an expression raises, and
    still changes nothing. *)
Example call_on_non_expression_raises :
  Heap.get_derived_open_circuit_potentials 8 33 Heap.sample_world
  = (inl Heap.AttributeError, Heap.sample_world).
Proof. vm_compute. reflexivity. Qed.

(** C8.  A call of either method on expressions returns and does not raise.
    It leaves the instance's [set_of_parameters], the framework's spatial
    variables and every object that existed before the call, the inputs among
    them, as they were: all it does is create objects.  The mapping it returns
    stands for exactly the mapping that the method over trees computes from
    the parameters and the two input trees, whatever the store looks like, so
    calls with equal inputs and equal parameters return equal mappings. *)
Theorem calls_only_construct (w : Heap.world) (self : Potential)
    (e_n e_p : positive) (s_n s_p : Symbol) :
  Heap.holds w self ->
  Heap.represents (Heap.objects w) e_n s_n ->
  Heap.represents (Heap.objects w) e_p s_p ->
  (exists d w',
    Heap.get_derived_open_circuit_potentials e_n e_p w = (inr d, w') /\
    Heap.unchanged w w' /\
    Heap.holds w' self /\
    Heap.represents (Heap.objects w') e_n s_n /\
    Heap.represents (Heap.objects w') e_p s_p /\
    forall v, Heap.represents_dict (Heap.objects w') d v <->
              v = get_derived_open_circuit_potentials self s_n s_p) /\
  (exists d w',
    Heap.get_derived_reaction_overpotentials e_n e_p w = (inr d, w') /\
    Heap.unchanged w w' /\
    Heap.holds w' self /\
    Heap.represents (Heap.objects w') e_n s_n /\
    Heap.represents (Heap.objects w') e_p s_p /\
    forall v, Heap.represents_dict (Heap.objects w') d v <->
              v = get_derived_reaction_overpotentials self s_n s_p).
Proof.
  intros Hself Hn Hp. split.
  - destruct (returns_elim _ _ _
      (store_get_derived_open_circuit_potentials w self e_n e_p s_n s_p
         Hself Hn Hp)) as (d & w' & Hrun & Hw & Hd).
    exists d, w'. split_and!; eauto using holds_mono, represents_mono,
      Heap.unchanged_objects.
    intros v. split; [|by intros ->]. intros Hv.
    by apply (represents_dict_inj (Heap.objects w') d).
  - destruct (returns_elim _ _ _
      (store_get_derived_reaction_overpotentials w self e_n e_p s_n s_p
         Hself Hn Hp)) as (d & w' & Hrun & Hw & Hd).
    exists d, w'. split_and!; eauto using holds_mono, represents_mono,
      Heap.unchanged_objects.
    intros v. split; [|by intros ->]. intros Hv.
    by apply (represents_dict_inj (Heap.objects w') d).
Qed.

Lemma calls_only_construct_witness :
  (Heap.holds Heap.sample_world sample_submodel /\
   Heap.represents (Heap.objects Heap.sample_world) 8 sample_field_n /\
   Heap.represents (Heap.objects Heap.sample_world) 9 sample_field_p) /\
  (exists d w',
    Heap.get_derived_open_circuit_potentials 8 9 Heap.sample_world
      = (inr d, w') /\
    Heap.unchanged Heap.sample_world w' /\
    Heap.holds w' sample_submodel /\
    Heap.represents (Heap.objects w') 8 sample_field_n /\
    Heap.represents (Heap.objects w') 9 sample_field_p /\
    forall v, Heap.represents_dict (Heap.objects w') d v <->
              v = get_derived_open_circuit_potentials sample_submodel
                    sample_field_n sample_field_p) /\
  (exists d w',
    Heap.get_derived_reaction_overpotentials 8 9 Heap.sample_world
      = (inr d, w') /\
    Heap.unchanged Heap.sample_world w' /\
    Heap.holds w' sample_submodel /\
    Heap.represents (Heap.objects w') 8 sample_field_n /\
    Heap.represents (Heap.objects w') 9 sample_field_p /\
    forall v, Heap.represents_dict (Heap.objects w') d v <->
              v = get_derived_reaction_overpotentials sample_submodel
                    sample_field_n sample_field_p).
Proof.
  assert (Hself : Heap.holds Heap.sample_world sample_submodel).
  { split;
      first [ apply Heap.rep_Parameter | apply Heap.rep_SpatialVariable ];
      vm_compute; reflexivity. }
  assert (Hn : Heap.represents (Heap.objects Heap.sample_world) 8
                 sample_field_n).
  { apply Heap.rep_Variable. vm_compute. reflexivity. }
  assert (Hp : Heap.represents (Heap.objects Heap.sample_world) 9
                 sample_field_p).
  { apply Heap.rep_Variable. vm_compute. reflexivity. }
  split; [exact (conj Hself (conj Hn Hp)) |].
  exact (calls_only_construct Heap.sample_world sample_submodel 8 9
           sample_field_n sample_field_p Hself Hn Hp).
Defined.

(** The equalities of C10 are equalities of values: as trees, the voltage in
    volts is a difference of two sums, not a sum. *)
Remark dimensional_difference_is_not_syntactic
    (self : Potential) (e_n e_p : Symbol) :
  let param := set_of_parameters self in
  related (get_derived_open_circuit_potentials self e_n e_p)
    "Measured open circuit voltage" "Measured open circuit voltage [V]"
    (fun v v' =>
      v' <> ((U_p_ref param - U_n_ref param) + potential_scale param * v)%sym).
Proof. intros param. relate. discriminate. Qed.

(** * Further properties of the two methods *)

(** ** Broadcasting *)

(** X1.  In both methods the per-electrode entries always carry a domain: the
    electrode's own when the input had none, the input's otherwise. *)
Theorem per_electrode_entries_are_tagged (self : Potential) (e_n e_p : Symbol) :
  let tagged := fun (e : Symbol) (electrode : string) (v : Symbol) =>
    domain v <> [] /\
    domain v = if decide (domain e = []) then [electrode] else domain e in
  related (get_derived_open_circuit_potentials self e_n e_p)
    "Negative electrode open circuit potential"
    "Positive electrode open circuit potential"
    (fun n p => tagged e_n "negative electrode" n /\
                tagged e_p "positive electrode" p) /\
  related (get_derived_reaction_overpotentials self e_n e_p)
    "Negative reaction overpotential" "Positive reaction overpotential"
    (fun n p => tagged e_n "negative electrode" n /\
                tagged e_p "positive electrode" p).
Proof.
  intros tagged.
  assert (H : forall e electrode,
    tagged e electrode (broadcast_if_necessary e [electrode])).
  { intros e electrode. unfold tagged.
    destruct (decide (domain e = [])) as [He|He]; cbn [domain].
    - split; [discriminate | reflexivity].
    - split; [assumption | reflexivity]. }
  clearbody tagged.
  split.
  - exists (broadcast_if_necessary e_n ["negative electrode"]),
      (broadcast_if_necessary e_p ["positive electrode"]).
    split; [lookup | split; [lookup |]]. split; apply H.
  - exists (broadcast_if_necessary e_n ["negative electrode"]),
      (broadcast_if_necessary e_p ["positive electrode"]).
    split; [lookup | split; [lookup |]]. split; apply H.
Qed.



(** X3.  Two calls of a method with the same parameters return the same
    mapping exactly when their inputs agree once broadcast; so the
    per-electrode entries determine the whole mapping, and an input without a
    domain cannot be told from its broadcast. *)
Theorem equal_mappings_iff_equal_broadcast_inputs
    (self : Potential) (e_n e_p e_n' e_p' : Symbol) :
  let agree :=
    broadcast_if_necessary e_n ["negative electrode"]
      = broadcast_if_necessary e_n' ["negative electrode"] /\
    broadcast_if_necessary e_p ["positive electrode"]
      = broadcast_if_necessary e_p' ["positive electrode"] in
  (get_derived_open_circuit_potentials self e_n e_p
     = get_derived_open_circuit_potentials self e_n' e_p' <-> agree) /\
  (get_derived_reaction_overpotentials self e_n e_p
     = get_derived_reaction_overpotentials self e_n' e_p' <-> agree).
Proof.
  intros agree. unfold agree. clear agree.
  destruct (per_electrode_entries self e_n e_p) as (A1 & A2 & A3 & A4).
  destruct (per_electrode_entries self e_n' e_p') as (B1 & B2 & B3 & B4).
  split; split.
  - intros H. rewrite H, B1 in A1. rewrite H, B3 in A3.
    injection A1 as A1. injection A3 as A3. by split.
  - intros [Hn Hp]. unfold get_derived_open_circuit_potentials. cbv zeta.
    rewrite Hn, Hp. reflexivity.
  - intros H. rewrite H, B2 in A2. rewrite H, B4 in A4.
    injection A2 as A2. injection A4 as A4. by split.
  - intros [Hn Hp]. unfold get_derived_reaction_overpotentials. cbv zeta.
    rewrite Hn, Hp. reflexivity.
Qed.

(** ** Names *)

(** X4.  No name of the open-circuit-potential mapping is a name of the
    reaction-overpotential mapping: merged, the two mappings keep all their
    22 entries, whatever the inputs. *)
Theorem mappings_have_disjoint_names
    (self self' : Potential) (ocp_n ocp_p eta_r_n eta_r_p : Symbol) :
  let r := get_derived_open_circuit_potentials self ocp_n ocp_p in
  let r' := get_derived_reaction_overpotentials self' eta_r_n eta_r_p in
  dom r ## dom r' /\
  r ##ₘ r' /\
  size (r ∪ r') = 22 /\
  r ⊆ r ∪ r' /\
  r' ⊆ r ∪ r'.
Proof.
  intros r r'.
  assert (Hdom : dom r ## dom r').
  { apply disjoint_intersection_L. lookup. }
  assert (Hdisj : r ##ₘ r') by by apply map_disjoint_dom.
  split; [exact Hdom|]. split; [exact Hdisj|]. split; [|split].
  - rewrite (map_size_disj_union r r' Hdisj).
    assert (Hr : size r = 12) by lookup.
    assert (Hr' : size r' = 10) by lookup.
    rewrite Hr, Hr'. reflexivity.
  - apply map_union_subseteq_l.
  - by apply map_union_subseteq_r.
Qed.

(** ** What an entry depends on *)

(** X5.  In both methods the four entries of the negative electrode (the
    potential, its average, and the two in volts) do not depend on the
    positive electrode's input, and the four of the positive electrode do not
    depend on the negative electrode's. *)
Theorem electrode_entries_depend_on_own_input
    (self : Potential) (e_n e_n' e_p e_p' : Symbol) :
  let same := fun (f : Symbol -> Symbol -> Variables) a b a' b' k =>
    is_Some (f a b !! k) /\ f a b !! k = f a' b' !! k in
  Forall (same (get_derived_open_circuit_potentials self) e_n e_p e_n e_p') [
    "Negative electrode open circuit potential";
    "Average negative electrode open circuit potential";
    "Negative electrode open circuit potential [V]";
    "Average negative electrode open circuit potential [V]"
  ] /\
  Forall (same (get_derived_open_circuit_potentials self) e_n e_p e_n' e_p) [
    "Positive electrode open circuit potential";
    "Average positive electrode open circuit potential";
    "Positive electrode open circuit potential [V]";
    "Average positive electrode open circuit potential [V]"
  ] /\
  Forall (same (get_derived_reaction_overpotentials self) e_n e_p e_n e_p') [
    "Negative reaction overpotential";
    "Average negative reaction overpotential";
    "Negative reaction overpotential [V]";
    "Average negative reaction overpotential [V]"
  ] /\
  Forall (same (get_derived_reaction_overpotentials self) e_n e_p e_n' e_p) [
    "Positive reaction overpotential";
    "Average positive reaction overpotential";
    "Positive reaction overpotential [V]";
    "Average positive reaction overpotential [V]"
  ].
Proof.
  intros same. unfold same.
  split_and!; repeat apply Forall_cons_2; try apply Forall_nil_2.
  all: split; [eexists; lookup | lookup].
Qed.

(** X6.  The six dimensionless open-circuit entries read no parameter but
    the two electrode lengths, and the whole reaction-overpotential mapping
    reads neither reference potential: two submodels that agree on the
    lengths (and, for the overpotentials, on the potential scale) return the
    same. *)
Theorem entries_ignore_unused_parameters
    (self self' : Potential) (e_n e_p : Symbol) :
  l_n (set_of_parameters self) = l_n (set_of_parameters self') ->
  l_p (set_of_parameters self) = l_p (set_of_parameters self') ->
  Forall (fun k =>
    is_Some (get_derived_open_circuit_potentials self e_n e_p !! k) /\
    get_derived_open_circuit_potentials self e_n e_p !! k
    = get_derived_open_circuit_potentials self' e_n e_p !! k) [
    "Negative electrode open circuit potential";
    "Positive electrode open circuit potential";
    "Average negative electrode open circuit potential";
    "Average positive electrode open circuit potential";
    "Average open circuit voltage";
    "Measured open circuit voltage"
  ] /\
  (potential_scale (set_of_parameters self)
     = potential_scale (set_of_parameters self') ->
   get_derived_reaction_overpotentials self e_n e_p
   = get_derived_reaction_overpotentials self' e_n e_p).
Proof.
  destruct self as [[ln lp Un Up ps]], self' as [[ln' lp' Un' Up' ps']].
  cbn. intros <- <-. split.
  - repeat apply Forall_cons_2; try apply Forall_nil_2.
    all: split; [eexists; lookup | lookup].
  - intros <-. reflexivity.
Qed.

Lemma entries_ignore_unused_parameters_witness :
  (l_n (set_of_parameters sample_submodel) = ParameterSym "l_n" /\
   l_p (set_of_parameters sample_submodel) = ParameterSym "l_p" /\
   potential_scale (set_of_parameters sample_submodel)
     = ParameterSym "potential_scale") /\
  get_derived_open_circuit_potentials sample_submodel
    sample_field_n sample_field_p !! "Average open circuit voltage"
  = get_derived_open_circuit_potentials
      {| set_of_parameters := {|
           l_n := ParameterSym "l_n"; l_p := ParameterSym "l_p";
           U_n_ref := Scalar 0; U_p_ref := Scalar 4;
           potential_scale := ParameterSym "potential_scale" |} |}
      sample_field_n sample_field_p !! "Average open circuit voltage" /\
  get_derived_reaction_overpotentials sample_submodel
    sample_field_n sample_field_p
  = get_derived_reaction_overpotentials
      {| set_of_parameters := {|
           l_n := ParameterSym "l_n"; l_p := ParameterSym "l_p";
           U_n_ref := Scalar 0; U_p_ref := Scalar 4;
           potential_scale := ParameterSym "potential_scale" |} |}
      sample_field_n sample_field_p.
Proof.
  split; [by split_and! |].
  destruct (entries_ignore_unused_parameters sample_submodel
    {| set_of_parameters := {|
         l_n := ParameterSym "l_n"; l_p := ParameterSym "l_p";
         U_n_ref := Scalar 0; U_p_ref := Scalar 4;
         potential_scale := ParameterSym "potential_scale" |} |}
    sample_field_n sample_field_p eq_refl eq_refl) as [H1 H2].
  split.
  - do 4 apply Forall_cons_1 in H1 as [_ H1].
    apply Forall_cons_1 in H1 as [[_ H1] _]. exact H1.
  - exact (H2 eq_refl).
Defined.

(** ** Values *)

(** X7.  When the value of the potential scale is not zero, the value of each
    dimensionless entry is recovered from the value of its entry in volts:
    subtract the reference potential (the difference of the two for a
    voltage, nothing for an overpotential) and divide by the scale. *)
Theorem dimensionless_values_recovered
    (self : Potential) (e_n e_p : Symbol) (rho : Symbol -> R) :
  let param := set_of_parameters self in
  let r := get_derived_open_circuit_potentials self e_n e_p in
  let r' := get_derived_reaction_overpotentials self e_n e_p in
  let back := fun (ref : R) (v v' : Symbol) =>
    eval rho v = ((eval rho v' - ref) / eval rho (potential_scale param))%R in
  let U_n := eval rho (U_n_ref param) in
  let U_p := eval rho (U_p_ref param) in
  eval rho (potential_scale param) <> 0%R ->
  (related r "Negative electrode open circuit potential"
     "Negative electrode open circuit potential [V]" (back U_n) /\
   related r "Positive electrode open circuit potential"
     "Positive electrode open circuit potential [V]" (back U_p) /\
   related r "Average negative electrode open circuit potential"
     "Average negative electrode open circuit potential [V]" (back U_n) /\
   related r "Average positive electrode open circuit potential"
     "Average positive electrode open circuit potential [V]" (back U_p) /\
   related r "Average open circuit voltage"
     "Average open circuit voltage [V]" (back (U_p - U_n)%R) /\
   related r "Measured open circuit voltage"
     "Measured open circuit voltage [V]" (back (U_p - U_n)%R)) /\
  (related r' "Negative reaction overpotential"
     "Negative reaction overpotential [V]" (back 0%R) /\
   related r' "Positive reaction overpotential"
     "Positive reaction overpotential [V]" (back 0%R) /\
   related r' "Average negative reaction overpotential"
     "Average negative reaction overpotential [V]" (back 0%R) /\
   related r' "Average positive reaction overpotential"
     "Average positive reaction overpotential [V]" (back 0%R) /\
   related r' "Average reaction overpotential"
     "Average reaction overpotential [V]" (back 0%R)).
Proof.
  intros param r r' back U_n U_p Hps.
  set (n := broadcast_if_necessary e_n ["negative electrode"]).
  set (p := broadcast_if_necessary e_p ["positive electrode"]).
  set (n_av := (Integral n standard_spatial_vars.x_n / l_n param)%sym).
  set (p_av := (Integral p standard_spatial_vars.x_p / l_p param)%sym).
  set (n_left := BoundaryValue n "left").
  set (p_right := BoundaryValue p "right").
  set (ps := potential_scale param) in *.
  assert (Hone : forall ref v, back (eval rho ref) v (ref + ps * v)%sym).
  { intros ref v. unfold back. cbn [eval]. by field. }
  assert (Htwo : forall v_p v_n,
    back (U_p - U_n)%R (v_p - v_n)%sym
      ((U_p_ref param + ps * v_p) - (U_n_ref param + ps * v_n))%sym).
  { intros v_p v_n. unfold back, U_p, U_n. cbn [eval]. by field. }
  assert (Hzero : forall v, back 0%R v (ps * v)%sym).
  { intros v. unfold back. cbn [eval]. by field. }
  clearbody back.
  split; split_and!.
  - exists n, (U_n_ref param + ps * n)%sym.
    split; [lookup | split; [lookup | apply Hone]].
  - exists p, (U_p_ref param + ps * p)%sym.
    split; [lookup | split; [lookup | apply Hone]].
  - exists n_av, (U_n_ref param + ps * n_av)%sym.
    split; [lookup | split; [lookup | apply Hone]].
  - exists p_av, (U_p_ref param + ps * p_av)%sym.
    split; [lookup | split; [lookup | apply Hone]].
  - exists (p_av - n_av)%sym,
      ((U_p_ref param + ps * p_av) - (U_n_ref param + ps * n_av))%sym.
    split; [lookup | split; [lookup | apply Htwo]].
  - exists (p_right - n_left)%sym,
      ((U_p_ref param + ps * p_right) - (U_n_ref param + ps * n_left))%sym.
    split; [lookup | split; [lookup | apply Htwo]].
  - exists n, (ps * n)%sym.
    split; [lookup | split; [lookup | apply Hzero]].
  - exists p, (ps * p)%sym.
    split; [lookup | split; [lookup | apply Hzero]].
  - exists n_av, (ps * n_av)%sym.
    split; [lookup | split; [lookup | apply Hzero]].
  - exists p_av, (ps * p_av)%sym.
    split; [lookup | split; [lookup | apply Hzero]].
  - exists (p_av - n_av)%sym, (ps * (p_av - n_av))%sym.
    split; [lookup | split; [lookup | apply Hzero]].
Qed.

Lemma dimensionless_values_recovered_witness :
  eval sample_rho (potential_scale (set_of_parameters sample_submodel))
    <> 0%R /\
  related
    (get_derived_open_circuit_potentials sample_submodel
       sample_field_n sample_field_p)
    "Average open circuit voltage" "Average open circuit voltage [V]"
    (fun v v' => eval sample_rho v =
      ((eval sample_rho v'
        - (eval sample_rho (U_p_ref (set_of_parameters sample_submodel))
           - eval sample_rho (U_n_ref (set_of_parameters sample_submodel))))
       / eval sample_rho (potential_scale (set_of_parameters sample_submodel)))%R) /\
  related
    (get_derived_reaction_overpotentials sample_submodel
       sample_field_n sample_field_p)
    "Average reaction overpotential" "Average reaction overpotential [V]"
    (fun v v' => eval sample_rho v =
      ((eval sample_rho v' - 0)
       / eval sample_rho (potential_scale (set_of_parameters sample_submodel)))%R).
Proof.
  assert (H : eval sample_rho
                (potential_scale (set_of_parameters sample_submodel)) <> 0%R)
    by (cbn; lra).
  split; [exact H |].
  destruct (dimensionless_values_recovered sample_submodel
              sample_field_n sample_field_p sample_rho H)
    as [(_ & _ & _ & _ & H1 & _) (_ & _ & _ & _ & H2)].
  split; [exact H1 | exact H2].
Defined.

(** X8.  In the open-circuit-potential mapping the two measured entries are
    built from boundary values, and they are the only ones: a boundary-value
    node occurs in another entry only if the inputs or the parameters already
    contain one. *)
Theorem ocp_boundary_values_only_in_measured
    (self : Potential) (ocp_n ocp_p : Symbol) :
  let param := set_of_parameters self in
  let r := get_derived_open_circuit_potentials self ocp_n ocp_p in
  let inherited :=
    has_boundary_value ocp_n || has_boundary_value ocp_p
    || has_boundary_value (l_n param) || has_boundary_value (l_p param)
    || has_boundary_value (U_n_ref param) || has_boundary_value (U_p_ref param)
    || has_boundary_value (potential_scale param) in
  related r "Measured open circuit voltage" "Measured open circuit voltage [V]"
    (fun v v' => has_boundary_value v = true /\ has_boundary_value v' = true) /\
  map_Forall (fun k v =>
    has_boundary_value v =
      has_boundary_value v &&
      (String.eqb k "Measured open circuit voltage"
       || String.eqb k "Measured open circuit voltage [V]"
       || inherited)) r.
Proof.
  intros param r inherited. split.
  - set (n := broadcast_if_necessary ocp_n ["negative electrode"]).
    set (p := broadcast_if_necessary ocp_p ["positive electrode"]).
    exists (BoundaryValue p "right" - BoundaryValue n "left")%sym,
      ((U_p_ref param + potential_scale param * BoundaryValue p "right")
       - (U_n_ref param + potential_scale param * BoundaryValue n "left"))%sym.
    split; [lookup | split; [lookup |]].
    cbn [has_boundary_value]. by rewrite !orb_true_r.
  - intros k v H. subst r inherited. apply elem_of_list_to_map_2 in H.
    repeat (apply elem_of_cons in H as [H|H]);
      try (by apply elem_of_nil in H);
      injection H as -> ->;
      cbn [has_boundary_value standard_spatial_vars.x_n
           standard_spatial_vars.x_p String.eqb Ascii.eqb Bool.eqb orb];
      rewrite ?has_boundary_value_broadcast_if_necessary;
      repeat (destruct (has_boundary_value _)); reflexivity.
Qed.

(** ** Errors *)

Lemma run_bind_returned {A B : Type} (m : Heap.M A) (f : A -> Heap.M B)
    (w w' : Heap.world) (a : A) :
  m w = (inr a, w') -> (m ≫= f) w = f a w'.
Proof. intros H. unfold mbind, Heap.M_bind. by rewrite H. Qed.

Lemma run_bind_raised {A B : Type} (m : Heap.M A) (f : A -> Heap.M B)
    (w w' : Heap.world) (e : Heap.Exception) :
  m w = (inl e, w') -> (m ≫= f) w = (inl e, w').
Proof. intros H. unfold mbind, Heap.M_bind. by rewrite H. Qed.

Lemma run_get_domain (w : Heap.world) (l : positive) (o : Heap.object) :
  Heap.objects w !! l = Some o ->
  Heap.get_domain l w = (inr (Heap.domain o), w).
Proof. intros H. unfold Heap.get_domain. by rewrite H. Qed.

Lemma run_get_domain_raises (w : Heap.world) (l : positive) :
  Heap.objects w !! l = None ->
  Heap.get_domain l w = (inl Heap.AttributeError, w).
Proof. intros H. unfold Heap.get_domain. by rewrite H. Qed.

(** X9.  When the first argument is not an expression, or the first is an
    expression with a domain and the second is not an expression, both
    methods raise [AttributeError] at the [domain] test, before creating any
    object: the world is left exactly as it was. *)
Theorem non_expression_argument_raises
    (w : Heap.world) (e_n e_p : positive) :
  Heap.objects w !! e_n = None \/
  ((exists o, Heap.objects w !! e_n = Some o /\ Heap.domain o <> []) /\
   Heap.objects w !! e_p = None) ->
  Heap.get_derived_open_circuit_potentials e_n e_p w
    = (inl Heap.AttributeError, w) /\
  Heap.get_derived_reaction_overpotentials e_n e_p w
    = (inl Heap.AttributeError, w).
Proof.
  intros H.
  unfold Heap.get_derived_open_circuit_potentials,
    Heap.get_derived_reaction_overpotentials.
  split.
  all: do 3 (erewrite run_bind_returned by reflexivity).
  all: destruct H as [Hn | [(o & Hn & Ho) Hp]].
  1, 3: by apply run_bind_raised, run_get_domain_raises.
  all: erewrite run_bind_returned by (by apply run_get_domain).
  all: rewrite (decide_False (P := Heap.domain o = [])) by done.
  all: erewrite run_bind_returned by reflexivity.
  all: by apply run_bind_raised, run_get_domain_raises.
Qed.

Lemma non_expression_argument_raises_witness :
  (Heap.objects Heap.sample_world !! 33%positive = None \/
   ((exists o, Heap.objects Heap.sample_world !! 33%positive = Some o /\
               Heap.domain o <> []) /\
    Heap.objects Heap.sample_world !! 8%positive = None)) /\
  Heap.get_derived_open_circuit_potentials 33 8 Heap.sample_world
    = (inl Heap.AttributeError, Heap.sample_world) /\
  Heap.get_derived_reaction_overpotentials 33 8 Heap.sample_world
    = (inl Heap.AttributeError, Heap.sample_world).
Proof.
  assert (H : Heap.objects Heap.sample_world !! 33%positive = None)
    by (vm_compute; reflexivity).
  split; [left; exact H |].
  exact (non_expression_argument_raises Heap.sample_world 33 8 (or_introl H)).
Defined.

(** ** Identity of the returned objects *)

Lemma returns_new_Broadcast (w : Heap.world) (c : positive) (s : Symbol)
    (d : list string) (post : positive -> Heap.world -> Prop) :
  Heap.represents (Heap.objects w) c s ->
  (forall l w',
    Heap.objects w !! l = None ->
    Heap.represents (Heap.objects w') l (Broadcast s d) ->
    post l w') ->
  Heap.returns (Heap.Broadcast c d) w post.
Proof.
  intros Hc H. apply returns_new. intros l w' Hl Hw' Hw. apply H; [done|].
  eapply Heap.rep_Broadcast.
  - rewrite Hw'. apply lookup_insert_eq.
  - eapply represents_mono; [apply Hw | done].
Qed.

Lemma returns_new_Integral (w : Heap.world) (c v : positive) (s x : Symbol)
    (post : positive -> Heap.world -> Prop) :
  Heap.represents (Heap.objects w) c s ->
  Heap.represents (Heap.objects w) v x ->
  (forall l w',
    Heap.objects w !! l = None ->
    Heap.represents (Heap.objects w') l (Integral s x) ->
    post l w') ->
  Heap.returns (Heap.Integral c v) w post.
Proof.
  intros Hc Hv H. apply returns_new. intros l w' Hl Hw' Hw. apply H; [done|].
  eapply Heap.rep_Integral.
  - rewrite Hw'. apply lookup_insert_eq.
  - eapply represents_mono; [apply Hw | done].
  - eapply represents_mono; [apply Hw | done].
Qed.

Lemma returns_new_BoundaryValue (w : Heap.world) (c : positive) (s : Symbol)
    (side : string) (post : positive -> Heap.world -> Prop) :
  Heap.represents (Heap.objects w) c s ->
  (forall l w',
    Heap.objects w !! l = None ->
    Heap.represents (Heap.objects w') l (BoundaryValue s side) ->
    post l w') ->
  Heap.returns (Heap.BoundaryValue c side) w post.
Proof.
  intros Hc H. apply returns_new. intros l w' Hl Hw' Hw. apply H; [done|].
  eapply Heap.rep_BoundaryValue.
  - rewrite Hw'. apply lookup_insert_eq.
  - eapply represents_mono; [apply Hw | done].
Qed.

Lemma returns_new_BinaryOperator (mk : positive -> positive -> Heap.node)
    (op : Symbol -> Symbol -> Symbol)
    (w : Heap.world) (a b : positive) (s t : Symbol)
    (post : positive -> Heap.world -> Prop) :
  (forall h l,
    h !! l = Some {| Heap.shape := mk a b;
                     Heap.domain := match domain s with
                                    | [] => domain t
                                    | _ :: _ => domain s
                                    end |} ->
    Heap.represents h a s -> Heap.represents h b t ->
    Heap.represents h l (op s t)) ->
  Heap.represents (Heap.objects w) a s ->
  Heap.represents (Heap.objects w) b t ->
  (forall l w',
    Heap.objects w !! l = None ->
    Heap.represents (Heap.objects w') l (op s t) ->
    post l w') ->
  Heap.returns (Heap.BinaryOperator mk a b) w post.
Proof.
  intros Hop Ha Hb H. unfold Heap.BinaryOperator.
  apply returns_bind. eapply returns_get_domain; [done|]. intros _.
  apply returns_bind. eapply returns_get_domain; [done|]. intros _.
  apply returns_new. intros l w' Hl Hw' Hw. apply H; [done|]. apply Hop.
  - rewrite Hw'. apply lookup_insert_eq.
  - eapply represents_mono; [apply Hw | done].
  - eapply represents_mono; [apply Hw | done].
Qed.

Lemma returns_new_Addition w a b s t post :
  Heap.represents (Heap.objects w) a s ->
  Heap.represents (Heap.objects w) b t ->
  (forall l w', Heap.objects w !! l = None ->
    Heap.represents (Heap.objects w') l (s + t) -> post l w') ->
  Heap.returns (Heap.Addition a b) w post.
Proof.
  apply returns_new_BinaryOperator. intros. by eapply Heap.rep_Addition.
Qed.

Lemma returns_new_Subtraction w a b s t post :
  Heap.represents (Heap.objects w) a s ->
  Heap.represents (Heap.objects w) b t ->
  (forall l w', Heap.objects w !! l = None ->
    Heap.represents (Heap.objects w') l (s - t) -> post l w') ->
  Heap.returns (Heap.Subtraction a b) w post.
Proof.
  apply returns_new_BinaryOperator. intros. by eapply Heap.rep_Subtraction.
Qed.

Lemma returns_new_Multiplication w a b s t post :
  Heap.represents (Heap.objects w) a s ->
  Heap.represents (Heap.objects w) b t ->
  (forall l w', Heap.objects w !! l = None ->
    Heap.represents (Heap.objects w') l (s * t) -> post l w') ->
  Heap.returns (Heap.Multiplication a b) w post.
Proof.
  apply returns_new_BinaryOperator. intros.
  by eapply Heap.rep_Multiplication.
Qed.

Lemma returns_new_Division w a b s t post :
  Heap.represents (Heap.objects w) a s ->
  Heap.represents (Heap.objects w) b t ->
  (forall l w', Heap.objects w !! l = None ->
    Heap.represents (Heap.objects w') l (s / t) -> post l w') ->
  Heap.returns (Heap.Division a b) w post.
Proof.
  apply returns_new_BinaryOperator. intros. by eapply Heap.rep_Division.
Qed.

(** Symbolic execution that also records that each created object is new
    with respect to the world [w0] the call started from. *)
Ltac construct_new lem :=
  eapply lem; [eassumption..|];
  let l := fresh "l" in
  let w' := fresh "w" in
  let Hl := fresh "Hl" in
  let H := fresh "H" in
  let Hw := fresh "Hw" in
  intros l w' Hl H Hw; lift;
  match goal with
  | Hacc : Heap.unchanged ?w0 ?w |- _ =>
      match type of Hw with
      | Heap.unchanged w _ =>
          apply (fun H' => lookup_weaken_None _ _ _ H'
                   (Heap.unchanged_objects _ _ Hacc)) in Hl;
          apply (fun H' => unchanged_trans _ _ _ H' Hw) in Hacc
      end
  end;
  clear Hw.

Ltac step_new lem := apply returns_bind; construct_new lem.

Ltac broadcast_if_necessary_step_new :=
  read_domain;
  apply returns_bind;
  match goal with
  | |- context [decide (domain ?s = [])] =>
      let E := fresh "E" in
      destruct (decide (domain s = [])) as [E|E];
      [ construct_new returns_new_Broadcast
      | apply returns_ret; intros _ ]
  end.

Ltac returned_objects :=
  apply returns_ret; split;
  [ do 2 eexists; split; [lookup | split; [lookup | by split]]
  | let k := fresh "k" in
    let l := fresh "l" in
    let H := fresh "H" in
    intros k l H ? ?; apply elem_of_list_to_map_2 in H;
    repeat (apply elem_of_cons in H as [H|H]);
    try (by apply elem_of_nil in H);
    injection H as -> ->; done ].

Lemma store_identity_open_circuit_potentials
    (w : Heap.world) (self : Potential) (ocp_n ocp_p : positive)
    (s_n s_p : Symbol) :
  Heap.holds w self ->
  Heap.represents (Heap.objects w) ocp_n s_n ->
  Heap.represents (Heap.objects w) ocp_p s_p ->
  Heap.returns (Heap.get_derived_open_circuit_potentials ocp_n ocp_p) w
    (fun d _ =>
      inputs_or_new w "Negative electrode open circuit potential"
        "Positive electrode open circuit potential" ocp_n ocp_p s_n s_p d).
Proof.
  intros [] Hn Hp.
  pose proof (unchanged_refl w) as Hacc.
  unfold Heap.get_derived_open_circuit_potentials, inputs_or_new.
  read returns_get_set_of_parameters.
  read returns_get_x_n.
  read returns_get_x_p.
  broadcast_if_necessary_step_new; broadcast_if_necessary_step_new.
  all: step_new returns_new_Integral; step_new returns_new_Division.
  all: step_new returns_new_Integral; step_new returns_new_Division.
  all: step_new returns_new_BoundaryValue; step_new returns_new_BoundaryValue.
  all: step_new returns_new_Subtraction; step_new returns_new_Subtraction.
  all: do 6 (step_new returns_new_Multiplication; step_new returns_new_Addition).
  all: step_new returns_new_Subtraction; step_new returns_new_Subtraction.
  all: returned_objects.
Qed.

Lemma store_identity_reaction_overpotentials
    (w : Heap.world) (self : Potential) (eta_r_n eta_r_p : positive)
    (s_n s_p : Symbol) :
  Heap.holds w self ->
  Heap.represents (Heap.objects w) eta_r_n s_n ->
  Heap.represents (Heap.objects w) eta_r_p s_p ->
  Heap.returns (Heap.get_derived_reaction_overpotentials eta_r_n eta_r_p) w
    (fun d _ =>
      inputs_or_new w "Negative reaction overpotential"
        "Positive reaction overpotential" eta_r_n eta_r_p s_n s_p d).
Proof.
  intros [] Hn Hp.
  pose proof (unchanged_refl w) as Hacc.
  unfold Heap.get_derived_reaction_overpotentials, inputs_or_new.
  read returns_get_set_of_parameters.
  read returns_get_x_n.
  read returns_get_x_p.
  broadcast_if_necessary_step_new; broadcast_if_necessary_step_new.
  all: step_new returns_new_Integral; step_new returns_new_Division.
  all: step_new returns_new_Integral; step_new returns_new_Division.
  all: step_new returns_new_Subtraction.
  all: do 5 step_new returns_new_Multiplication.
  all: returned_objects.
Qed.

(** X10.  A per-electrode entry of the returned dict is the input object
    itself, not a copy, when the input has a domain, and a newly created
    object when it has none; every other entry is a newly created object.  So
    no returned object is one that existed before the call, except an input
    handed back. *)
Theorem returned_objects_are_inputs_or_new (w : Heap.world) (self : Potential)
    (e_n e_p : positive) (s_n s_p : Symbol) :
  Heap.holds w self ->
  Heap.represents (Heap.objects w) e_n s_n ->
  Heap.represents (Heap.objects w) e_p s_p ->
  (exists d w',
    Heap.get_derived_open_circuit_potentials e_n e_p w = (inr d, w') /\
    inputs_or_new w "Negative electrode open circuit potential"
      "Positive electrode open circuit potential" e_n e_p s_n s_p d) /\
  (exists d w',
    Heap.get_derived_reaction_overpotentials e_n e_p w = (inr d, w') /\
    inputs_or_new w "Negative reaction overpotential"
      "Positive reaction overpotential" e_n e_p s_n s_p d).
Proof.
  intros Hself Hn Hp. split.
  - destruct (returns_elim _ _ _
      (store_identity_open_circuit_potentials w self e_n e_p s_n s_p
         Hself Hn Hp)) as (d & w' & Hrun & _ & Hd).
    by exists d, w'.
  - destruct (returns_elim _ _ _
      (store_identity_reaction_overpotentials w self e_n e_p s_n s_p
         Hself Hn Hp)) as (d & w' & Hrun & _ & Hd).
    by exists d, w'.
Qed.

Lemma returned_objects_are_inputs_or_new_witness :
  (Heap.holds Heap.sample_world sample_submodel /\
   Heap.represents (Heap.objects Heap.sample_world) 1 (ParameterSym "l_n") /\
   Heap.represents (Heap.objects Heap.sample_world) 9 sample_field_p) /\
  (exists d w',
    Heap.get_derived_open_circuit_potentials 1 9 Heap.sample_world
      = (inr d, w') /\
    inputs_or_new Heap.sample_world
      "Negative electrode open circuit potential"
      "Positive electrode open circuit potential"
      1 9 (ParameterSym "l_n") sample_field_p d) /\
  (exists d w',
    Heap.get_derived_reaction_overpotentials 1 9 Heap.sample_world
      = (inr d, w') /\
    inputs_or_new Heap.sample_world
      "Negative reaction overpotential" "Positive reaction overpotential"
      1 9 (ParameterSym "l_n") sample_field_p d).
Proof.
  assert (Hself : Heap.holds Heap.sample_world sample_submodel).
  { split;
      first [ apply Heap.rep_Parameter | apply Heap.rep_SpatialVariable ];
      vm_compute; reflexivity. }
  assert (Hn : Heap.represents (Heap.objects Heap.sample_world) 1
                 (ParameterSym "l_n")).
  { apply Heap.rep_Parameter. vm_compute. reflexivity. }
  assert (Hp : Heap.represents (Heap.objects Heap.sample_world) 9
                 sample_field_p).
  { apply Heap.rep_Variable. vm_compute. reflexivity. }
  split; [exact (conj Hself (conj Hn Hp)) |].
  exact (returned_objects_are_inputs_or_new Heap.sample_world sample_submodel
           1 9 (ParameterSym "l_n") sample_field_p Hself Hn Hp).
Defined.

(** On the sample world, with the untagged parameter at location 1 as first
    input: the negative entry is the new broadcast object at location 10, the
    positive entry is the input object at location 9. *)
Example sample_call_identity :
  match Heap.get_derived_reaction_overpotentials 1 9 Heap.sample_world with
  | (inr d, w') =>
      d !! "Negative reaction overpotential" = Some 10%positive /\
      d !! "Positive reaction overpotential" = Some 9%positive /\
      Heap.objects Heap.sample_world !! 10%positive = None /\
      Heap.objects w' !! 10%positive =
        Some {| Heap.shape := Heap.NBroadcast 1;
                Heap.domain := ["negative electrode"] |}
  | (inl _, _) => False
  end.
Proof. vm_compute. split_and!; reflexivity. Qed.

(** ** Calls in sequence *)

Lemma represents_dict_mono (h h' : gmap positive Heap.object)
    (d : gmap string positive) (v : Variables) :
  h ⊆ h' -> Heap.represents_dict h d v -> Heap.represents_dict h' d v.
Proof.
  intros Hsub H. eapply map_Forall2_impl; [exact H|].
  intros k l s. by apply represents_mono.
Qed.

Lemma represents_dict_union (h : gmap positive Heap.object)
    (d1 d2 : gmap string positive) (v1 v2 : Variables) :
  Heap.represents_dict h d1 v1 -> Heap.represents_dict h d2 v2 ->
  Heap.represents_dict h (d1 ∪ d2) (v1 ∪ v2).
Proof.
  intros H1 H2 k. rewrite !lookup_union.
  destruct (H1 k), (H2 k); by constructor.
Qed.

(** X11.  Calls compose.  After a call of the first method, a call of the
    second on expressions that existed before returns as well; the mapping
    returned first still stands for what it stood for, the two dicts merged
    stand for the two mappings merged, and everything that existed before
    the first call is unchanged after the second. *)
Theorem calls_compose (w : Heap.world) (self : Potential)
    (ocp_n ocp_p eta_r_n eta_r_p : positive)
    (s_n s_p t_n t_p : Symbol) :
  Heap.holds w self ->
  Heap.represents (Heap.objects w) ocp_n s_n ->
  Heap.represents (Heap.objects w) ocp_p s_p ->
  Heap.represents (Heap.objects w) eta_r_n t_n ->
  Heap.represents (Heap.objects w) eta_r_p t_p ->
  exists d1 w1 d2 w2,
    Heap.get_derived_open_circuit_potentials ocp_n ocp_p w = (inr d1, w1) /\
    Heap.get_derived_reaction_overpotentials eta_r_n eta_r_p w1
      = (inr d2, w2) /\
    Heap.unchanged w w2 /\
    Heap.holds w2 self /\
    Heap.represents_dict (Heap.objects w2) d1
      (get_derived_open_circuit_potentials self s_n s_p) /\
    Heap.represents_dict (Heap.objects w2) d2
      (get_derived_reaction_overpotentials self t_n t_p) /\
    Heap.represents_dict (Heap.objects w2) (d1 ∪ d2)
      (get_derived_open_circuit_potentials self s_n s_p
       ∪ get_derived_reaction_overpotentials self t_n t_p) /\
    size (d1 ∪ d2) = 22.
Proof.
  intros Hself Hn Hp Hn' Hp'.
  destruct (returns_elim _ _ _
    (store_get_derived_open_circuit_potentials w self ocp_n ocp_p s_n s_p
       Hself Hn Hp)) as (d1 & w1 & Hrun1 & Hw1 & Hd1).
  pose proof (holds_mono _ _ _ Hw1 Hself) as Hself1.
  pose proof (represents_mono _ _ _ _ (Heap.unchanged_objects _ _ Hw1) Hn')
    as Hn1.
  pose proof (represents_mono _ _ _ _ (Heap.unchanged_objects _ _ Hw1) Hp')
    as Hp1.
  destruct (returns_elim _ _ _
    (store_get_derived_reaction_overpotentials w1 self eta_r_n eta_r_p
       t_n t_p Hself1 Hn1 Hp1)) as (d2 & w2 & Hrun2 & Hw2 & Hd2).
  pose proof (represents_dict_mono _ _ _ _
    (Heap.unchanged_objects _ _ Hw2) Hd1) as Hd1'.
  pose proof (represents_dict_union _ _ _ _ _ Hd1' Hd2) as Hd.
  exists d1, w1, d2, w2.
  split; [exact Hrun1|]. split; [exact Hrun2|].
  split; [by eapply unchanged_trans|].
  split; [by eapply holds_mono|].
  split; [exact Hd1'|]. split; [exact Hd2|]. split; [exact Hd|].
  apply map_Forall2_dom_L in Hd. rewrite <- size_dom, Hd, size_dom.
  assert (Hdisj : get_derived_open_circuit_potentials self s_n s_p
                  ##ₘ get_derived_reaction_overpotentials self t_n t_p).
  { apply map_disjoint_dom, disjoint_intersection_L. lookup. }
  rewrite (map_size_disj_union _ _ Hdisj).
  assert (H1 : size (get_derived_open_circuit_potentials self s_n s_p) = 12)
    by lookup.
  assert (H2 : size (get_derived_reaction_overpotentials self t_n t_p) = 10)
    by lookup.
  rewrite H1, H2. reflexivity.
Qed.

Lemma calls_compose_witness :
  (Heap.holds Heap.sample_world sample_submodel /\
   Heap.represents (Heap.objects Heap.sample_world) 8 sample_field_n /\
   Heap.represents (Heap.objects Heap.sample_world) 9 sample_field_p /\
   Heap.represents (Heap.objects Heap.sample_world) 1 (ParameterSym "l_n")) /\
  exists d1 w1 d2 w2,
    Heap.get_derived_open_circuit_potentials 8 9 Heap.sample_world
      = (inr d1, w1) /\
    Heap.get_derived_reaction_overpotentials 1 9 w1 = (inr d2, w2) /\
    Heap.unchanged Heap.sample_world w2 /\
    Heap.holds w2 sample_submodel /\
    Heap.represents_dict (Heap.objects w2) d1
      (get_derived_open_circuit_potentials sample_submodel
         sample_field_n sample_field_p) /\
    Heap.represents_dict (Heap.objects w2) d2
      (get_derived_reaction_overpotentials sample_submodel
         (ParameterSym "l_n") sample_field_p) /\
    Heap.represents_dict (Heap.objects w2) (d1 ∪ d2)
      (get_derived_open_circuit_potentials sample_submodel
         sample_field_n sample_field_p
       ∪ get_derived_reaction_overpotentials sample_submodel
           (ParameterSym "l_n") sample_field_p) /\
    size (d1 ∪ d2) = 22.
Proof.
  assert (Hself : Heap.holds Heap.sample_world sample_submodel).
  { split;
      first [ apply Heap.rep_Parameter | apply Heap.rep_SpatialVariable ];
      vm_compute; reflexivity. }
  assert (Hn : Heap.represents (Heap.objects Heap.sample_world) 8
                 sample_field_n).
  { apply Heap.rep_Variable. vm_compute. reflexivity. }
  assert (Hp : Heap.represents (Heap.objects Heap.sample_world) 9
                 sample_field_p).
  { apply Heap.rep_Variable. vm_compute. reflexivity. }
  assert (Hl : Heap.represents (Heap.objects Heap.sample_world) 1
                 (ParameterSym "l_n")).
  { apply Heap.rep_Parameter. vm_compute. reflexivity. }
  split; [exact (conj Hself (conj Hn (conj Hp Hl))) |].
  exact (calls_compose Heap.sample_world sample_submodel 8 9 1 9
           sample_field_n sample_field_p (ParameterSym "l_n") sample_field_p
           Hself Hn Hp Hl Hp).
Defined.
